(** * CT-Segmentation: the DICOM -> NIfTI -> segmentation pipeline of [app.py]

    A shallow embedding of [src/app.py]: the two [QThread] workers
    ([DicomToNiftiWorker], [SegmentationWorker]) and the coordinating widget
    ([SegmentationUI]), together with the fragments of the Python runtime they
    rely on ([str] methods, [max] with a key, [pathlib], [os.mkdir]).

    Conventions.
    - A Python [str] is a Rocq [string]; the few non-ASCII characters of the
      source's literals are kept as their UTF-8 bytes.
    - A [pathlib.Path] is its [parts] tuple (POSIX flavour), a [list string].
    - The file system is a finite map from paths to nodes; paths are compared
      lexically (no symbolic links, no resolution of [..]).
    - Worker code runs in a small monad that threads the file system, records
      every signal emission and external call in order, and can raise.
    - The collaborators (SimpleITK, the external executables) are oracles
      gathered in environment records. *)

From Stdlib Require Import ZArith String Ascii List Bool Lia.
From stdpp Require Import gmap strings list fin_maps.
Import ListNotations.

Local Open Scope string_scope.
Local Open Scope list_scope.

(* ===================================================================== *)
(** * Python built-ins used by the program                                *)
(* ===================================================================== *)

Module Py.

(** [s.startswith(p)] *)
Definition startswith (s p : string) : bool := String.prefix p s.

Definition rev_string (s : string) : string :=
  string_of_list_ascii (List.rev (list_ascii_of_string s)).

(** [s.endswith(p)] *)
Definition endswith (s p : string) : bool :=
  String.prefix (rev_string p) (rev_string s).

(** [needle in hay] *)
Fixpoint contains (needle hay : string) : bool :=
  String.prefix needle hay ||
  match hay with
  | EmptyString => false
  | String _ hay' => contains needle hay'
  end.

(** The characters for which [str.isspace] holds, as the byte sequences of
    their UTF-8 encodings read from the END of the text backwards:
    U+0009..U+000D, U+001C..U+0020, U+0085, U+00A0, U+1680,
    U+2000..U+200A, U+2028, U+2029, U+202F, U+205F, U+3000.
    [strip_one] removes one trailing whitespace character from a reversed
    byte list, if there is one. *)
Definition ascii_space (n : nat) : bool :=
  (((9 <=? n) && (n <=? 13)) || ((28 <=? n) && (n <=? 32)))%nat.

Definition strip_one (r : list nat) : option (list nat) :=
  match r with
  | b0 :: r0 =>
      if ascii_space b0 then Some r0 else
      (match r0 with
      | b1 :: r1 =>
          if (b1 =? 194) && ((b0 =? 133) || (b0 =? 160)) then Some r1 else
          match r1 with
          | b2 :: r2 =>
              if (b2 =? 225) && (b1 =? 154) && (b0 =? 128) then Some r2
              else if (b2 =? 226) && (b1 =? 128) &&
                      (((128 <=? b0) && (b0 <=? 138)) ||
                       (b0 =? 168) || (b0 =? 169) || (b0 =? 175))
                   then Some r2
              else if (b2 =? 226) && (b1 =? 129) && (b0 =? 159) then Some r2
              else if (b2 =? 227) && (b1 =? 128) && (b0 =? 128) then Some r2
              else None
          | [] => None
          end
      | [] => None
      end)%nat
  | [] => None
  end.

(** Strip trailing whitespace characters; every round removes at least one
    byte, so the length of the list bounds the number of rounds. *)
Fixpoint rstrip_rev (fuel : nat) (r : list nat) : list nat :=
  match fuel with
  | O => r
  | S fuel' =>
      match strip_one r with
      | Some r' => rstrip_rev fuel' r'
      | None => r
      end
  end.

(** [s.rstrip()] *)
Definition rstrip (s : string) : string :=
  let r := List.rev (List.map nat_of_ascii (list_ascii_of_string s)) in
  string_of_list_ascii
    (List.map ascii_of_nat (List.rev (rstrip_rev (List.length r) r))).

(** [sep.join(xs)] *)
Fixpoint join (sep : string) (xs : list string) : string :=
  match xs with
  | [] => ""
  | [x] => x
  | x :: xs' => x +:+ sep +:+ join sep xs'
  end.

(** [s.split(sep)] for a one-character separator: the fields between the
    separators, empty fields included. *)
Fixpoint split_on (sep : ascii) (s : string) : list string :=
  match s with
  | EmptyString => [""]
  | String c s' =>
      if Ascii.eqb c sep then "" :: split_on sep s'
      else match split_on sep s' with
           | [] => [String c ""]
           | f :: fs => String c f :: fs
           end
  end.

Definition hex_digit (n : nat) : ascii :=
  nth n (list_ascii_of_string "0123456789abcdef") "0"%char.

(** The escape of one character in [repr(s)], [quote] being the quote
    chosen for the whole text. *)
Definition repr_char (quote c : ascii) : string :=
  let n := nat_of_ascii c in
  if Ascii.eqb c quote || (n =? 92)%nat then String (ascii_of_nat 92) (String c "")
  else if (n =? 9)%nat then String (ascii_of_nat 92) "t"
  else if (n =? 10)%nat then String (ascii_of_nat 92) "n"
  else if (n =? 13)%nat then String (ascii_of_nat 92) "r"
  else if (n <? 32)%nat || (n =? 127)%nat
       then String (ascii_of_nat 92)
              (String "x" (String (hex_digit (n / 16))
                             (String (hex_digit (n mod 16)) "")))
  else String c "".

(** [repr(s)] of a [str]: single quotes, unless the text holds a single
    quote and no double quote; the quote in use, the backslash and the
    control characters are escaped. Characters beyond ASCII are taken to be
    printable and are kept. *)
Definition repr (s : string) : string :=
  let dq := ascii_of_nat 34 in
  let sq := ascii_of_nat 39 in
  let quote :=
    if contains (String sq "") s && negb (contains (String dq "") s)
    then dq else sq in
  String quote
    (string_of_list_ascii
       (List.flat_map (fun c => list_ascii_of_string (repr_char quote c))
                      (list_ascii_of_string s))
     +:+ String quote "").

(** [max(xs, key=key)] on a non-empty sequence. CPython keeps the first
    item and replaces it only by an item whose key compares strictly
    greater; ["max() arg is an empty sequence"] is a [ValueError]. *)
Definition max_from {A} (key : A -> nat) (x : A) (xs : list A) : A :=
  fold_left (fun best y => if (key best <? key y)%nat then y else best) xs x.

Definition max_key {A} (key : A -> nat) (xs : list A) : option A :=
  match xs with
  | [] => None
  | x :: xs' => Some (max_from key x xs')
  end.

End Py.

(* ===================================================================== *)
(** * [pathlib]: pure POSIX paths                                         *)
(* ===================================================================== *)

(** A path is its [parts] tuple: for an absolute path the first part is the
    root (["/"], or ["//"] for exactly two leading slashes), the others are
    the components, none of which is empty or ["."]. *)
Abbreviation Path := (list string).

Module PurePath.

(** [posixpath.splitroot]: the root and the rest. *)
Definition splitroot (p : string) : string * string :=
  match p with
  | String "/" r1 =>
      match r1 with
      | String "/" r2 =>
          match r2 with
          | String "/" _ => ("/", r1)
          | _ => ("//", r2)
          end
      | _ => ("/", r1)
      end
  | _ => ("", p)
  end.

Definition is_component (x : string) : bool :=
  negb (String.eqb x "") && negb (String.eqb x ".").

(** [Path(s)] *)
Definition of_str (s : string) : Path :=
  let '(root, rel) := splitroot s in
  let tail := List.filter is_component (Py.split_on "/" rel) in
  if String.eqb root "" then tail else root :: tail.

Definition is_root (x : string) : bool :=
  String.eqb x "/" || String.eqb x "//".

Definition is_absolute (p : Path) : bool :=
  match p with
  | r :: _ => is_root r
  | [] => false
  end.

(** [p / s]: a relative segment is appended, an absolute one replaces. *)
Definition joinpath (p : Path) (s : string) : Path :=
  let q := of_str s in
  if is_absolute q then q else p ++ q.

(** [str(p)] *)
Definition str (p : Path) : string :=
  match p with
  | [] => "."
  | r :: tail => if is_root r then r +:+ Py.join "/" tail else Py.join "/" p
  end.

(** The anchors [Path("")], [Path("/")] and [Path("//")] are their own
    parent. *)
Definition is_anchor (p : Path) : bool :=
  match p with
  | [] => true
  | [r] => is_root r
  | _ => false
  end.

(** [p.parent] *)
Definition parent (p : Path) : Path :=
  if is_anchor p then p else removelast p.

End PurePath.

Notation "p // s" := (PurePath.joinpath p s) (at level 40, left associativity).

(* ===================================================================== *)
(** * Exceptions                                                          *)
(* ===================================================================== *)

(** The exceptions the program can meet, all subclasses of [Exception].
    [ExternalError] stands for whatever a collaborator raises. *)
Inductive exn : Type :=
| RuntimeError (msg : string)
| ValueError (msg : string)
| TypeError (msg : string)
| UnicodeDecodeError (msg : string)
| FileNotFoundError (path : Path)
| FileExistsError (path : Path)
| NotADirectoryError (path : Path)
| ExternalError (msg : string).

(** [str(e)], what the handlers print after ["ERROR: "]. An [OSError]
    prints its number, its text and the [repr] of the file name. *)
Definition str_exn (e : exn) : string :=
  match e with
  | RuntimeError m | ValueError m | TypeError m | UnicodeDecodeError m
  | ExternalError m => m
  | FileNotFoundError p =>
      "[Errno 2] No such file or directory: " +:+ Py.repr (PurePath.str p)
  | FileExistsError p =>
      "[Errno 17] File exists: " +:+ Py.repr (PurePath.str p)
  | NotADirectoryError p =>
      "[Errno 20] Not a directory: " +:+ Py.repr (PurePath.str p)
  end.

Inductive result (A : Type) : Type :=
| Return (a : A)
| Raise (e : exn).
Arguments Return {A} a.
Arguments Raise {A} e.

(* ===================================================================== *)
(** * The file system                                                     *)
(* ===================================================================== *)

Inductive node : Type := Dir | File.

Abbreviation FS := (gmap Path node).

Module Os.

(** What resolving a path ends in: an entry, [ENOENT] or [ENOTDIR]. *)
Inductive resolved : Type :=
| Found (n : node)
| NoEntry
| NotADir.

(** Resolution of the path [rev rp], component by component: the anchors
    always exist and are directories; below, an entry is found only
    through directories, the first ancestor that is missing gives [ENOENT]
    and the first that is no directory gives [ENOTDIR]. *)
Fixpoint resolve_rev (fs : FS) (rp : list string) : resolved :=
  match rp with
  | [] => Found Dir
  | _ :: rp' =>
      if PurePath.is_anchor (List.rev rp) then Found Dir else
      match resolve_rev fs rp' with
      | Found Dir =>
          match fs !! List.rev rp with
          | Some n => Found n
          | None => NoEntry
          end
      | Found File | NotADir => NotADir
      | NoEntry => NoEntry
      end
  end.

Definition resolve (fs : FS) (p : Path) : resolved :=
  resolve_rev fs (List.rev p).

(** What is at [p], if [p] can be resolved. *)
Definition stat (fs : FS) (p : Path) : option node :=
  match resolve fs p with Found n => Some n | _ => None end.

Definition is_dir (fs : FS) (p : Path) : bool :=
  match stat fs p with Some Dir => true | _ => false end.

Definition is_file (fs : FS) (p : Path) : bool :=
  match stat fs p with Some File => true | _ => false end.

(** [os.mkdir(p)]: the parent is resolved first ([ENOENT], [ENOTDIR]),
    then an existing entry is refused ([EEXIST]); the exception names
    [p]. *)
Definition mkdir (fs : FS) (p : Path) : result FS :=
  match resolve fs (PurePath.parent p) with
  | NoEntry => Raise (FileNotFoundError p)
  | NotADir | Found File => Raise (NotADirectoryError p)
  | Found Dir =>
      match stat fs p with
      | Some _ => Raise (FileExistsError p)
      | None => Return (<[p := Dir]> fs)
      end
  end.

End Os.

Module PathIO.

(** [Path.mkdir(parents=False, exist_ok=exist_ok)]:
    [FileNotFoundError] is re-raised, another [OSError] is swallowed when
    [exist_ok] holds and the path is a directory. *)
Definition mkdir_flat (exist_ok : bool) (fs : FS) (p : Path) : result FS :=
  match Os.mkdir fs p with
  | Return fs' => Return fs'
  | Raise (FileNotFoundError q) => Raise (FileNotFoundError q)
  | Raise e =>
      if negb exist_ok || negb (Os.is_dir fs p) then Raise e else Return fs
  end.

(** [Path.mkdir(parents=True, exist_ok=exist_ok)], by recursion on the
    reversed parts [rp] (the parent of [rev (x :: rp)] is [rev rp]):
    on [FileNotFoundError] the parent is made with
    [parents=True, exist_ok=True] and the path itself is retried without
    [parents]; an anchor, being its own parent, re-raises. *)
Fixpoint mkdir_parents_rev (exist_ok : bool) (fs : FS) (rp : list string)
  : result FS :=
  let p := List.rev rp in
  match Os.mkdir fs p with
  | Return fs' => Return fs'
  | Raise (FileNotFoundError q) =>
      match rp with
      | [] => Raise (FileNotFoundError q)
      | _ :: rp' =>
          if PurePath.is_anchor p then Raise (FileNotFoundError q) else
          match mkdir_parents_rev true fs rp' with
          | Raise e => Raise e
          | Return fs1 => mkdir_flat exist_ok fs1 p
          end
      end
  | Raise e =>
      if negb exist_ok || negb (Os.is_dir fs p) then Raise e else Return fs
  end.

(** [p.mkdir(parents=parents, exist_ok=exist_ok)] *)
Definition mkdir (parents exist_ok : bool) (fs : FS) (p : Path) : result FS :=
  if parents then mkdir_parents_rev exist_ok fs (List.rev p)
  else mkdir_flat exist_ok fs p.

End PathIO.

(* ===================================================================== *)
(** * The worker monad                                                    *)
(* ===================================================================== *)

(** What a worker thread does that the rest of the world can observe, in
    the order it does it: the signals it emits towards the coordinating
    widget and its calls to the outside. *)
Inductive event : Type :=
| EmitLog (text : string)                 (* self.log.emit(text) *)
| EmitFinishedConv (nifti : Path)         (* DicomToNiftiWorker.finished.emit(nifti) *)
| EmitFinishedSeg                         (* SegmentationWorker.finished.emit() *)
| CallMkdir (p : Path)                    (* p.mkdir(...) *)
| CallExecute (files : list string)       (* reader.SetFileNames(files); reader.Execute() *)
| CallWriteImage (file : string)          (* sitk.WriteImage(image, file) *)
| CallPopen (cmd : list string)           (* subprocess.Popen(cmd, ...) *)
| CallWait.                               (* process.wait() *)

(** A computation reads and updates the file system, appends to the trace
    and either returns or raises. *)
Definition M (A : Type) : Type := FS -> list event * FS * result A.

Definition ret {A} (a : A) : M A := fun fs => ([], fs, Return a).

Definition raise {A} (e : exn) : M A := fun fs => ([], fs, Raise e).

Definition bind {A B} (c : M A) (k : A -> M B) : M B :=
  fun fs =>
    match c fs with
    | (tr, fs1, Return a) =>
        match k a fs1 with
        | (tr', fs2, r) => (tr ++ tr', fs2, r)
        end
    | (tr, fs1, Raise e) => (tr, fs1, Raise e)
    end.

Definition emit (ev : event) : M unit := fun fs => ([ev], fs, Return tt).

(** [try: body  except Exception as e: handler(e)] *)
Definition try_except {A} (body : M A) (handler : exn -> M A) : M A :=
  fun fs =>
    match body fs with
    | (tr, fs1, Return a) => (tr, fs1, Return a)
    | (tr, fs1, Raise e) =>
        match handler e fs1 with
        | (tr', fs2, r) => (tr ++ tr', fs2, r)
        end
    end.

Declare Scope worker_scope.
Delimit Scope worker_scope with worker.
Notation "x <- c ;; k" := (bind c (fun x => k))
  (at level 100, c at next level, right associativity) : worker_scope.
Notation "c ;; k" := (bind c (fun _ => k))
  (at level 100, right associativity) : worker_scope.
Local Open Scope worker_scope.

(** [for x in xs: body(x)] *)
Fixpoint for_each {A} (xs : list A) (body : A -> M unit) : M unit :=
  match xs with
  | [] => ret tt
  | x :: xs' => body x ;; for_each xs' body
  end.

(** [p.mkdir(parents=parents, exist_ok=exist_ok)] inside a worker. *)
Definition path_mkdir (parents exist_ok : bool) (p : Path) : M unit :=
  fun fs =>
    match PathIO.mkdir parents exist_ok fs p with
    | Return fs' => ([CallMkdir p], fs', Return tt)
    | Raise e => ([CallMkdir p], fs, Raise e)
    end.

Definition trace_of {A} (x : list event * FS * result A) : list event := fst (fst x).
Definition fs_of {A} (x : list event * FS * result A) : FS := snd (fst x).
Definition result_of {A} (x : list event * FS * result A) : result A := snd x.

(* ===================================================================== *)
(** * Worker: DICOM -> NIfTI                                              *)
(* ===================================================================== *)

(** The SimpleITK collaborator as the conversion worker meets it during one
    run. [Execute] and [WriteImage] answer [None] when they succeed and the
    exception otherwise; the image itself is never inspected by the
    program. *)
Record ConvEnv : Type := {
  GetGDCMSeriesIDs : string -> list string;
  GetGDCMSeriesFileNames : string -> string -> list string;
  Execute : list string -> option exn;
  WriteImage : string -> option exn
}.

Module DicomToNiftiWorker.

Record t : Type := {
  dicom_dir : Path;
  output_dir : Path
}.

Definition __init__ (dicom_dir output_dir : string) : t :=
  {| dicom_dir := PurePath.of_str dicom_dir;
     output_dir := PurePath.of_str output_dir |}.

(** [reader.SetFileNames(files); image = reader.Execute()] *)
Definition reader_Execute (E : ConvEnv) (files : list string) : M unit :=
  emit (CallExecute files) ;;
  match Execute E files with
  | None => ret tt
  | Some e => raise e
  end.

(** [sitk.WriteImage(image, str(nifti_path))]: on success there is a
    file at [nifti_path]. *)
Definition sitk_WriteImage (E : ConvEnv) (nifti_path : Path) : M unit :=
  emit (CallWriteImage (PurePath.str nifti_path)) ;;
  match WriteImage E (PurePath.str nifti_path) with
  | None => fun fs => ([], <[nifti_path := File]> fs, Return tt)
  | Some e => raise e
  end.

(** [self.finished.emit(arg)]. The signal is declared [pyqtSignal(Path)]:
    an argument that is no [Path] is refused with a [TypeError] and
    nothing is emitted. *)
Definition finished_emit (arg : option Path) : M unit :=
  match arg with
  | Some p => emit (EmitFinishedConv p)
  | None =>
      raise (TypeError
        "DicomToNiftiWorker.finished[Path].emit(): argument 1 has unexpected type 'NoneType'")
  end.

(** Lines 90-95: the series with the most files. *)
Definition best_series (E : ConvEnv) (self : t) (series_ids : list string)
  : option string :=
  Py.max_key
    (fun sid =>
       List.length (GetGDCMSeriesFileNames E (PurePath.str (dicom_dir self)) sid))
    series_ids.

(** The body of the [try] of [run]. *)
Definition run_body (E : ConvEnv) (self : t) : M unit :=
  path_mkdir true true (output_dir self) ;;
  let nifti_path := output_dir self // "ct.nii.gz" in
  emit (EmitLog "Reading DICOM folder...") ;;
  let series_ids := GetGDCMSeriesIDs E (PurePath.str (dicom_dir self)) in
  match series_ids with
  | [] => raise (RuntimeError "No DICOM series found")
  | _ :: _ =>
      match best_series E self series_ids with
      | None => raise (ValueError "max() arg is an empty sequence")
      | Some best =>
          let files :=
            GetGDCMSeriesFileNames E (PurePath.str (dicom_dir self)) best in
          reader_Execute E files ;;
          sitk_WriteImage E nifti_path ;;
          emit (EmitLog ("NIfTI created: " +:+ PurePath.str nifti_path)) ;;
          finished_emit (Some nifti_path)
      end
  end.

(** An exception of the handler itself leaves [run]; what the interpreter
    does with it then is not part of the program. *)
Definition run (E : ConvEnv) (self : t) : M unit :=
  try_except (run_body E self)
    (fun e =>
       emit (EmitLog ("ERROR: " +:+ str_exn e)) ;;
       finished_emit None).

End DicomToNiftiWorker.

(* ===================================================================== *)
(** * Worker: segmentation                                                *)
(* ===================================================================== *)

(** What launching a command in a given file system does. [Popen] itself
    raises (the executable is missing, say); or the process runs and the
    worker reads some lines of its combined output (each with its line
    ending) until reading itself raises (the output is no valid text); or
    the worker reads all its lines and the process exits with a return
    code. A process that ran leaves the file system as it pleases. *)
Inductive proc_outcome : Type :=
| LaunchFails (e : exn)
| ReadFails (stdout : list string) (e : exn) (after : FS)
| Runs (stdout : list string) (returncode : Z) (after : FS).

Record SegEnv : Type := {
  Popen : list string -> FS -> proc_outcome
}.

Module SegmentationWorker.

Record t : Type := {
  nifti_path : Path;
  output_dir : Path;
  method : string;
  model : string;
  device : string;
  ts_task : string
}.

(** [Path(None)] is a [TypeError]. *)
Definition __init__ (nifti_path : Path) (output_dir : option string)
    (method model device ts_task : string) : result t :=
  match output_dir with
  | None =>
      Raise (TypeError
        "expected str, bytes or os.PathLike object, not NoneType")
  | Some d =>
      Return {| nifti_path := nifti_path;
                output_dir := PurePath.of_str d;
                method := method; model := model; device := device;
                ts_task := ts_task |}
  end.

(** The process works on the file system while its output is read. *)
Definition _run (E : SegEnv) (cmd : list string) : M unit :=
  emit (CallPopen cmd) ;;
  outcome <- (fun fs => ([], fs, Return (Popen E cmd fs))) ;;
  match outcome with
  | LaunchFails e => raise e
  | ReadFails stdout e after =>
      for_each stdout (fun line => emit (EmitLog (Py.rstrip line))) ;;
      (fun _ => ([], after, Raise e))
  | Runs stdout returncode after =>
      for_each stdout (fun line => emit (EmitLog (Py.rstrip line))) ;;
      (fun _ => ([], after, Return tt)) ;;
      emit CallWait ;;
      if (returncode =? 0)%Z then ret tt
      else raise (RuntimeError "Segmentation failed")
  end.

Definition skellytour_cmd (self : t) : list string :=
  [ "skellytour";
    "-i"; PurePath.str (nifti_path self);
    "-o"; PurePath.str (output_dir self);
    "-m"; model self;
    "-d"; device self;
    "--overwrite" ].

Definition run_skellytour (E : SegEnv) (self : t) : M unit :=
  emit (EmitLog "Running Skellytour...") ;;
  _run E (skellytour_cmd self).

Definition ts_out_dir (self : t) : Path :=
  output_dir self // ("segmentations_" +:+ ts_task self).

Definition totalsegmentator_cmd (self : t) : list string :=
  [ "TotalSegmentator";
    "-i"; PurePath.str (nifti_path self);
    "-o"; PurePath.str (ts_out_dir self);
    "-ta"; ts_task self ].

Definition run_totalsegmentator (E : SegEnv) (self : t) : M unit :=
  emit (EmitLog ("Running TotalSegmentator (task: " +:+ ts_task self +:+ ")")) ;;
  let out_dir := ts_out_dir self in
  path_mkdir false true out_dir ;;
  _run E (totalsegmentator_cmd self).

Definition run_body (E : SegEnv) (self : t) : M unit :=
  (if String.eqb (method self) "Skellytour"
   then run_skellytour E self
   else run_totalsegmentator E self) ;;
  emit EmitFinishedSeg.

Definition run (E : SegEnv) (self : t) : M unit :=
  try_except (run_body E self)
    (fun e =>
       emit (EmitLog ("ERROR: " +:+ str_exn e)) ;;
       emit EmitFinishedSeg).

End SegmentationWorker.

(* ===================================================================== *)
(** * TotalSegmentator tasks                                              *)
(* ===================================================================== *)

(** The dictionary keeps its insertion order, which the task box shows. *)
Definition TOTAL_SEGMENTATOR_TASKS : list (string * list string) :=
  [ ("CT (default)",
      [ "total"; "lung_vessels"; "body"; "cerebral_bleed"; "hip_implant";
        "pleural_pericard_effusion"; "head_glands_cavities"; "head_muscles";
        "headneck_bones_vessels"; "headneck_muscles"; "liver_vessels";
        "oculomotor_muscles"; "lung_nodules"; "kidney_cysts"; "breasts";
        "liver_segments"; "craniofacial_structures"; "abdominal_muscles";
        "teeth"; "trunk_cavities"; "vertebrae_body"; "brain_structures";
        "coronary_arteries"; "face" ]);
    ("MR (_mr)",
      [ "total_mr"; "body_mr"; "vertebrae_mr"; "liver_segments_mr";
        "appendicular_bones_mr"; "tissue_types_mr"; "face_mr";
        "thigh_shoulder_muscles_mr" ]);
    ("Special / Licensed",
      [ "heartchambers_highres"; "appendicular_bones"; "tissue_types";
        "tissue_4_types"; "brain_aneurysm" ]) ].

(** Every task identifier of the catalogue. *)
Definition catalog_tasks : list string :=
  List.flat_map snd TOTAL_SEGMENTATOR_TASKS.

(** The text of a group's header item, [f"--- {group} ---"]. *)
Definition group_header (group : string) : string :=
  "--- " +:+ group +:+ " ---".

(* ===================================================================== *)
(** * Main UI                                                             *)
(* ===================================================================== *)

(** A line feed, the [\n] of the source's literals. *)
Definition nl : string := String (ascii_of_nat 10) "".

(** The part of a [QComboBox] the program uses. *)
Record QComboBox : Type := {
  items : list string;
  currentIndex : nat;
  isEnabled : bool
}.

Definition currentText (cb : QComboBox) : string :=
  nth (currentIndex cb) (items cb) "".

Definition setEnabled (b : bool) (cb : QComboBox) : QComboBox :=
  {| items := items cb; currentIndex := currentIndex cb; isEnabled := b |}.

Definition setCurrentIndex (i : nat) (cb : QComboBox) : QComboBox :=
  {| items := items cb; currentIndex := i; isEnabled := isEnabled cb |}.

Definition addItems (xs : list string) : QComboBox :=
  {| items := xs; currentIndex := 0; isEnabled := true |}.

(** What a slot of the widget does besides updating the widget. *)
Inductive ui_effect : Type :=
| Warning (title text : string)             (* QMessageBox.warning(self, title, text) *)
| StartConv (w : DicomToNiftiWorker.t)      (* self.worker.start() *)
| StartSeg (w : SegmentationWorker.t)       (* self.worker.start() *)
| Uncaught (e : exn).                       (* the slot raised *)

Module SegmentationUI.

Record t : Type := {
  btn_convert : bool;          (* btn_convert.isEnabled() *)
  run_btn : bool;              (* run_btn.isEnabled() *)
  method_box : QComboBox;
  model_box : QComboBox;
  device_box : QComboBox;
  ts_task_box : QComboBox;
  log_box : list string;
  dicom_dir : option string;
  output_dir : option string;
  nifti_path : option Path;
  worker : option (DicomToNiftiWorker.t + SegmentationWorker.t)
}.

Definition set_btn_convert (b : bool) (u : t) : t :=
  {| btn_convert := b; run_btn := run_btn u; method_box := method_box u;
     model_box := model_box u; device_box := device_box u;
     ts_task_box := ts_task_box u; log_box := log_box u;
     dicom_dir := dicom_dir u; output_dir := output_dir u;
     nifti_path := nifti_path u; worker := worker u |}.

Definition set_run_btn (b : bool) (u : t) : t :=
  {| btn_convert := btn_convert u; run_btn := b; method_box := method_box u;
     model_box := model_box u; device_box := device_box u;
     ts_task_box := ts_task_box u; log_box := log_box u;
     dicom_dir := dicom_dir u; output_dir := output_dir u;
     nifti_path := nifti_path u; worker := worker u |}.

Definition set_boxes (me mo de ta : QComboBox) (u : t) : t :=
  {| btn_convert := btn_convert u; run_btn := run_btn u; method_box := me;
     model_box := mo; device_box := de; ts_task_box := ta;
     log_box := log_box u;
     dicom_dir := dicom_dir u; output_dir := output_dir u;
     nifti_path := nifti_path u; worker := worker u |}.

Definition set_dicom_dir (d : option string) (u : t) : t :=
  {| btn_convert := btn_convert u; run_btn := run_btn u;
     method_box := method_box u;
     model_box := model_box u; device_box := device_box u;
     ts_task_box := ts_task_box u; log_box := log_box u;
     dicom_dir := d; output_dir := output_dir u;
     nifti_path := nifti_path u; worker := worker u |}.

Definition set_output_dir (d : option string) (u : t) : t :=
  {| btn_convert := btn_convert u; run_btn := run_btn u;
     method_box := method_box u;
     model_box := model_box u; device_box := device_box u;
     ts_task_box := ts_task_box u; log_box := log_box u;
     dicom_dir := dicom_dir u; output_dir := d;
     nifti_path := nifti_path u; worker := worker u |}.

Definition set_nifti_path (n : option Path) (u : t) : t :=
  {| btn_convert := btn_convert u; run_btn := run_btn u;
     method_box := method_box u;
     model_box := model_box u; device_box := device_box u;
     ts_task_box := ts_task_box u; log_box := log_box u;
     dicom_dir := dicom_dir u; output_dir := output_dir u;
     nifti_path := n; worker := worker u |}.

Definition set_worker (w : DicomToNiftiWorker.t + SegmentationWorker.t)
    (u : t) : t :=
  {| btn_convert := btn_convert u; run_btn := run_btn u;
     method_box := method_box u;
     model_box := model_box u; device_box := device_box u;
     ts_task_box := ts_task_box u; log_box := log_box u;
     dicom_dir := dicom_dir u; output_dir := output_dir u;
     nifti_path := nifti_path u; worker := Some w |}.

(** [self.log_box.append(text)] *)
Definition log (u : t) (text : string) : t :=
  {| btn_convert := btn_convert u; run_btn := run_btn u;
     method_box := method_box u;
     model_box := model_box u; device_box := device_box u;
     ts_task_box := ts_task_box u; log_box := log_box u ++ [text];
     dicom_dir := dicom_dir u; output_dir := output_dir u;
     nifti_path := nifti_path u; worker := worker u |}.

Definition on_method_changed (u : t) (method : string) : t :=
  let skel := String.eqb method "Skellytour" in
  set_boxes (method_box u)
            (setEnabled skel (model_box u))
            (setEnabled skel (device_box u))
            (setEnabled (negb skel) (ts_task_box u)) u.

(** The items of the task box: per group its header, then its tasks. *)
Definition ts_task_items : list string :=
  List.flat_map (fun gt => group_header (fst gt) :: snd gt)
                TOTAL_SEGMENTATOR_TASKS.

(** The widget as [__init__] leaves it. *)
Definition __init__ : t :=
  let u :=
    {| btn_convert := true; run_btn := true;
       method_box := addItems ["Skellytour"; "TotalSegmentator"];
       model_box := addItems ["low"; "medium"; "high"];
       device_box := addItems ["gpu"; "cpu"];
       ts_task_box := addItems ts_task_items;
       log_box := [];
       dicom_dir := None; output_dir := None; nifti_path := None;
       worker := None |} in
  on_method_changed u (currentText (method_box u)).

(** [select_dicom], [path] being what the directory dialog returned
    (the empty string when it was cancelled). *)
Definition select_dicom (u : t) (path : string) : t :=
  if String.eqb path "" then u
  else log (set_dicom_dir (Some path) u) ("DICOM: " +:+ path).

Definition select_output (u : t) (path : string) : t :=
  if String.eqb path "" then u
  else log (set_output_dir (Some path) u) ("Output: " +:+ path).

Definition missing_input : ui_effect :=
  Warning "Missing Input" "Select DICOM and output folders".

Definition convert_dicom (u : t) : t * list ui_effect :=
  match dicom_dir u, output_dir u with
  | Some d, Some o =>
      if String.eqb d "" || String.eqb o "" then (u, [missing_input])
      else
        let u1 := log u ("Converting DICOM → NIfTI..." +:+ nl) in
        let u2 := set_btn_convert false u1 in
        let w := DicomToNiftiWorker.__init__ d o in
        (set_worker (inl w) u2, [StartConv w])
  | _, _ => (u, [missing_input])
  end.

Definition on_nifti_done (u : t) (nifti : option Path) : t :=
  let u1 := set_btn_convert true u in
  match nifti with
  | Some p =>
      log (set_nifti_path (Some p) u1)
          (nl +:+ "NIfTI conversion done." +:+ nl)
  | None => log u1 (nl +:+ "NIfTI conversion failed." +:+ nl)
  end.

Definition missing_nifti : ui_effect :=
  Warning "Missing NIfTI" "Run DICOM → NIfTI first".

Definition invalid_task : ui_effect :=
  Warning "Invalid Task" "Select a valid TotalSegmentator task".

Definition mr_warning : string :=
  "⚠ WARNING: MR task selected. Ensure MR input." +:+ nl.

Definition run_segmentation (u : t) : t * list ui_effect :=
  match nifti_path u with
  | None => (u, [missing_nifti])
  | Some nifti =>
      let task := currentText (ts_task_box u) in
      if Py.startswith task "---" then (u, [invalid_task])
      else
        let u1 := if Py.endswith task "_mr" then log u mr_warning else u in
        let u2 := log u1 ("Starting segmentation..." +:+ nl) in
        let u3 := set_run_btn false u2 in
        match SegmentationWorker.__init__ nifti (output_dir u)
                (currentText (method_box u)) (currentText (model_box u))
                (currentText (device_box u)) task with
        | Raise e => (u3, [Uncaught e])
        | Return w => (set_worker (inr w) u3, [StartSeg w])
        end
  end.

Definition on_finished (u : t) : t :=
  log (set_run_btn true u) (nl +:+ "Done." +:+ nl).

End SegmentationUI.

(* ===================================================================== *)
(** * The application: the widget, its event loop and the worker threads  *)
(* ===================================================================== *)

(** The widget lives in the GUI thread. A started worker runs beside it and
    its signals are queued to the GUI thread, which handles them one at a
    time, in the order each worker emitted them, interleaved arbitrarily
    with the user's actions and with the signals of other workers.
    [self.worker] holds the worker started last; a worker it no longer
    refers to is taken to run on to its end. *)
Module App.

(** A worker in flight: the signals it has still to hand to the GUI. *)
Inductive thread : Type :=
| ConvThread (pending : list event)
| SegThread (pending : list event).

Definition pending (th : thread) : list event :=
  match th with ConvThread p | SegThread p => p end.

Definition with_pending (th : thread) (p : list event) : thread :=
  match th with ConvThread _ => ConvThread p | SegThread _ => SegThread p end.

Definition is_conv (th : thread) : bool :=
  match th with ConvThread _ => true | SegThread _ => false end.

Definition is_seg (th : thread) : bool :=
  match th with ConvThread _ => false | SegThread _ => true end.

Record t : Type := {
  ui : SegmentationUI.t;
  threads : list thread;            (* the workers in flight *)
  effects : list ui_effect          (* dialogs shown, workers started, so far *)
}.

(** What can happen next. A click that starts a worker says in which
    surroundings the worker will run. *)
Inductive input : Type :=
| ClickSelectDicom (chosen : string)
| ClickSelectOutput (chosen : string)
| ClickConvert (E : ConvEnv) (fs : FS)
| ClickRun (E : SegEnv) (fs : FS)
| ChooseMethod (i : nat)
| ChooseModel (i : nat)
| ChooseDevice (i : nat)
| ChooseTask (i : nat)
| Deliver (k : nat).                (* the next queued signal of thread k *)

Definition is_signal (ev : event) : bool :=
  match ev with
  | EmitLog _ | EmitFinishedConv _ | EmitFinishedSeg => true
  | _ => false
  end.

Definition signals (tr : list event) : list event := List.filter is_signal tr.

(** The connections made before [start()]:
    [worker.log -> self.log], [worker.finished -> on_nifti_done] for a
    conversion worker and [-> on_finished] for a segmentation worker. *)
Definition slot (u : SegmentationUI.t) (sg : event) : SegmentationUI.t :=
  match sg with
  | EmitLog text => SegmentationUI.log u text
  | EmitFinishedConv nifti => SegmentationUI.on_nifti_done u (Some nifti)
  | EmitFinishedSeg => SegmentationUI.on_finished u
  | _ => u
  end.

Definition start_thread (th : thread) : list thread :=
  match pending th with [] => [] | _ :: _ => [th] end.

Definition started_conv (E : ConvEnv) (fs : FS) (eff : ui_effect) : list thread :=
  match eff with
  | StartConv w =>
      start_thread (ConvThread (signals (trace_of (DicomToNiftiWorker.run E w fs))))
  | _ => []
  end.

Definition started_seg (E : SegEnv) (fs : FS) (eff : ui_effect) : list thread :=
  match eff with
  | StartSeg w =>
      start_thread (SegThread (signals (trace_of (SegmentationWorker.run E w fs))))
  | _ => []
  end.

(** A user can only change an enabled box, and only to one of its items. *)
Definition choose_box (i : nat) (cb : QComboBox) : QComboBox :=
  if isEnabled cb && (i <? List.length (items cb))%nat
  then setCurrentIndex i cb else cb.

Definition choose_method (i : nat) (u : SegmentationUI.t) : SegmentationUI.t :=
  let cb := choose_box i (SegmentationUI.method_box u) in
  let u1 := SegmentationUI.set_boxes cb (SegmentationUI.model_box u)
              (SegmentationUI.device_box u) (SegmentationUI.ts_task_box u) u in
  (* currentTextChanged fires when the text changed *)
  if String.eqb (currentText cb) (currentText (SegmentationUI.method_box u))
  then u1 else SegmentationUI.on_method_changed u1 (currentText cb).

Definition with_ui (s : t) (u : SegmentationUI.t) : t :=
  {| ui := u; threads := threads s; effects := effects s |}.

Definition step (s : t) (i : input) : t :=
  let u := ui s in
  match i with
  | ClickSelectDicom chosen => with_ui s (SegmentationUI.select_dicom u chosen)
  | ClickSelectOutput chosen => with_ui s (SegmentationUI.select_output u chosen)
  | ClickConvert E fs =>
      (* a disabled button does not emit [clicked] *)
      if SegmentationUI.btn_convert u then
        let '(u', effs) := SegmentationUI.convert_dicom u in
        {| ui := u';
           threads := threads s ++ List.flat_map (started_conv E fs) effs;
           effects := effects s ++ effs |}
      else s
  | ClickRun E fs =>
      if SegmentationUI.run_btn u then
        let '(u', effs) := SegmentationUI.run_segmentation u in
        {| ui := u';
           threads := threads s ++ List.flat_map (started_seg E fs) effs;
           effects := effects s ++ effs |}
      else s
  | ChooseMethod i => with_ui s (choose_method i u)
  | ChooseModel i =>
      with_ui s (SegmentationUI.set_boxes (SegmentationUI.method_box u)
                   (choose_box i (SegmentationUI.model_box u))
                   (SegmentationUI.device_box u) (SegmentationUI.ts_task_box u) u)
  | ChooseDevice i =>
      with_ui s (SegmentationUI.set_boxes (SegmentationUI.method_box u)
                   (SegmentationUI.model_box u)
                   (choose_box i (SegmentationUI.device_box u))
                   (SegmentationUI.ts_task_box u) u)
  | ChooseTask i =>
      with_ui s (SegmentationUI.set_boxes (SegmentationUI.method_box u)
                   (SegmentationUI.model_box u) (SegmentationUI.device_box u)
                   (choose_box i (SegmentationUI.ts_task_box u)) u)
  | Deliver k =>
      match threads s !! k with
      | None => s
      | Some th =>
          match pending th with
          | [] => {| ui := u; threads := delete k (threads s); effects := effects s |}
          | [sg] =>
              {| ui := slot u sg; threads := delete k (threads s);
                 effects := effects s |}
          | sg :: rest =>
              {| ui := slot u sg;
                 threads := <[k := with_pending th rest]> (threads s);
                 effects := effects s |}
          end
      end
  end.

Definition init : t :=
  {| ui := SegmentationUI.__init__; threads := []; effects := [] |}.

Definition exec (s : t) (inputs : list input) : t := fold_left step inputs s.

(** The states the application can be in. *)
Definition reachable (s : t) : Prop := exists inputs, s = exec init inputs.

Definition converting (s : t) : nat := List.length (List.filter is_conv (threads s)).
Definition segmenting (s : t) : nat := List.length (List.filter is_seg (threads s)).

End App.

(* ===================================================================== *)
(** * Vocabulary for the properties                                       *)
(* ===================================================================== *)

Definition is_log (ev : event) : bool :=
  match ev with EmitLog _ => true | _ => false end.

Definition is_finished (ev : event) : bool :=
  match ev with EmitFinishedConv _ | EmitFinishedSeg => true | _ => false end.

Definition is_write (ev : event) : bool :=
  match ev with CallWriteImage _ => true | _ => false end.

(** A trace in which no completion signal is emitted. *)
Definition quiet (tr : list event) : bool :=
  forallb (fun ev => negb (is_finished ev)) tr.

(** The engine chosen by [SegmentationWorker.run] (lines 134-137), before
    the completion signal. *)
Definition seg_engine (E : SegEnv) (self : SegmentationWorker.t) : M unit :=
  if String.eqb (SegmentationWorker.method self) "Skellytour"
  then SegmentationWorker.run_skellytour E self
  else SegmentationWorker.run_totalsegmentator E self.

(** The name of a command, [cmd[0]]. *)
Definition command_name (cmd : list string) : string := hd "" cmd.

(** An exception carries a text when the text occurs in what it prints,
    which for a [RuntimeError] is its only argument. *)
Definition carries (e : exn) (text : string) : bool :=
  Py.contains text (str_exn e).

(** The process runner as the specification words it: after a non-zero
    exit, one log line per output line and then a failure that carries the
    name of the command. *)
Definition failure_names_command (E : SegEnv) (cmd : list string) (fs : FS)
  : Prop :=
  forall stdout rc after,
    Popen E cmd fs = Runs stdout rc after -> rc <> 0%Z ->
    exists e,
      SegmentationWorker._run E cmd fs =
        (CallPopen cmd :: List.map (fun l => EmitLog (Py.rstrip l)) stdout
           ++ [CallWait], after, Raise e)
      /\ carries e (command_name cmd) = true.

(** The texts of the log signals of a trace, in order. *)
Definition log_texts (tr : list event) : list string :=
  List.flat_map (fun ev => match ev with EmitLog t => [t] | _ => [] end) tr.

(** Two widgets that differ at most in the content of the log box. *)
Definition same_but_log (u u' : SegmentationUI.t) : Prop :=
  SegmentationUI.btn_convert u' = SegmentationUI.btn_convert u
  /\ SegmentationUI.run_btn u' = SegmentationUI.run_btn u
  /\ SegmentationUI.method_box u' = SegmentationUI.method_box u
  /\ SegmentationUI.model_box u' = SegmentationUI.model_box u
  /\ SegmentationUI.device_box u' = SegmentationUI.device_box u
  /\ SegmentationUI.ts_task_box u' = SegmentationUI.ts_task_box u
  /\ SegmentationUI.dicom_dir u' = SegmentationUI.dicom_dir u
  /\ SegmentationUI.output_dir u' = SegmentationUI.output_dir u
  /\ SegmentationUI.nifti_path u' = SegmentationUI.nifti_path u
  /\ SegmentationUI.worker u' = SegmentationUI.worker u.

Definition is_finished_conv (ev : event) : bool :=
  match ev with EmitFinishedConv _ => true | _ => false end.

Definition is_finished_seg (ev : event) : bool :=
  match ev with EmitFinishedSeg => true | _ => false end.

(** The signals a worker has still to deliver are log lines followed by
    one last signal, [fin] telling which it can be. *)
Fixpoint wf_pending (fin : event -> bool) (p : list event) : bool :=
  match p with
  | [] => false
  | [sg] => fin sg
  | sg :: rest => is_log sg && wf_pending fin rest
  end.

(** A segmentation worker ends with its completion signal; a conversion
    worker with its completion signal or, when it failed, with a log
    line. *)
Definition wf_thread (th : App.thread) : bool :=
  match th with
  | App.ConvThread p =>
      wf_pending (fun sg => is_finished_conv sg || is_log sg) p
  | App.SegThread p => wf_pending is_finished_seg p
  end.

(** What holds in every state the application can reach. *)
Record Inv (s : App.t) : Prop := {
  inv_threads : Forall (fun th => wf_thread th = true) (App.threads s);
  inv_convert :
    (0 < App.converting s)%nat ->
    SegmentationUI.btn_convert (App.ui s) = false;
  inv_one_conv : (App.converting s <= 1)%nat;
  inv_run :
    SegmentationUI.run_btn (App.ui s) = (App.segmenting s =? 0)%nat;
  inv_one_seg : (App.segmenting s <= 1)%nat;
  inv_output :
    (0 < App.converting s)%nat \/ SegmentationUI.nifti_path (App.ui s) <> None ->
    exists o, SegmentationUI.output_dir (App.ui s) = Some o;
  inv_volume :
    (0 < App.segmenting s)%nat ->
    SegmentationUI.nifti_path (App.ui s) <> None;
  inv_task_items :
    items (SegmentationUI.ts_task_box (App.ui s)) = SegmentationUI.ts_task_items;
  inv_task_index :
    (currentIndex (SegmentationUI.ts_task_box (App.ui s))
     < List.length SegmentationUI.ts_task_items)%nat
}.

(** The conversion stage as the specification words it: an empty list of
    series makes the stage fail with "No DICOM series found". *)
Definition no_series_is_the_failure
    (E : ConvEnv) (self : DicomToNiftiWorker.t) (fs : FS) : Prop :=
  GetGDCMSeriesIDs E (PurePath.str (DicomToNiftiWorker.dicom_dir self)) = [] ->
  exists tr fs1,
    DicomToNiftiWorker.run_body E self fs =
      (tr, fs1, Raise (RuntimeError "No DICOM series found")).

(** The TotalSegmentator dispatch as the specification words it: whatever
    the file system, the worker makes the task's directory and launches the
    command. *)
Definition dispatch_always_launches
    (E : SegEnv) (self : SegmentationWorker.t) (fs : FS) : Prop :=
  let t := SegmentationWorker.ts_task self in
  let out := SegmentationWorker.output_dir self ++ ["segmentations_" +:+ t] in
  SegmentationWorker.method self = "TotalSegmentator" ->
  In t catalog_tasks ->
  exists rest,
    trace_of (SegmentationWorker.run E self fs) =
      EmitLog ("Running TotalSegmentator (task: " +:+ t +:+ ")")
        :: CallMkdir out
        :: CallPopen ["TotalSegmentator";
                      "-i"; PurePath.str (SegmentationWorker.nifti_path self);
                      "-o"; PurePath.str out; "-ta"; t]
        :: rest.

(** The specification's scheduling rule: never more than one worker in
    flight. *)
Definition single_worker : Prop :=
  forall s, App.reachable s -> (List.length (App.threads s) <= 1)%nat.

(** The widget's boxes agree with the chosen method: the model and device
    boxes are enabled for Skellytour only, the task box for the other
    method only. *)
Definition boxes_agree (u : SegmentationUI.t) : Prop :=
  let skel := String.eqb (currentText (SegmentationUI.method_box u)) "Skellytour" in
  isEnabled (SegmentationUI.model_box u) = skel
  /\ isEnabled (SegmentationUI.device_box u) = skel
  /\ isEnabled (SegmentationUI.ts_task_box u) = negb skel.

(** An input that is not a choice in the method box. *)
Definition leaves_method (i : App.input) : bool :=
  match i with App.ChooseMethod _ => false | _ => true end.

Definition is_start_seg (eff : ui_effect) : bool :=
  match eff with StartSeg _ => true | _ => false end.

(** The folders a conversion needs are chosen. *)
Definition folders_chosen (u : SegmentationUI.t) : Prop :=
  exists d o,
    SegmentationUI.dicom_dir u = Some d /\ SegmentationUI.output_dir u = Some o
    /\ d <> "" /\ o <> "".

(** The state of an application in which the method box was never touched
    and no segmentation was ever started. *)
Definition method_untouched (s : App.t) : Prop :=
  SegmentationUI.method_box (App.ui s)
    = SegmentationUI.method_box SegmentationUI.__init__
  /\ SegmentationUI.ts_task_box (App.ui s)
     = SegmentationUI.ts_task_box SegmentationUI.__init__
  /\ App.segmenting s = 0%nat
  /\ List.filter is_start_seg (App.effects s) = [].

Definition is_uncaught (eff : ui_effect) : bool :=
  match eff with Uncaught _ => true | _ => false end.

(* ===================================================================== *)
(** * Concrete surroundings for the examples                              *)
(* ===================================================================== *)

Definition env_two_series : ConvEnv :=
  {| GetGDCMSeriesIDs := fun _ => ["1.2.3"; "1.2.4"; "1.2.5"];
     GetGDCMSeriesFileNames := fun _ sid =>
       if String.eqb sid "1.2.3" then ["a1"]
       else if String.eqb sid "1.2.4" then ["b1"; "b2"]
       else ["c1"; "c2"];
     Execute := fun _ => None;
     WriteImage := fun _ => None |}.

Definition env_no_series : ConvEnv :=
  {| GetGDCMSeriesIDs := fun _ => [];
     GetGDCMSeriesFileNames := fun _ _ => [];
     Execute := fun _ => None;
     WriteImage := fun _ => None |}.

Definition env_decode_fails : ConvEnv :=
  {| GetGDCMSeriesIDs := fun _ => ["1.2.3"];
     GetGDCMSeriesFileNames := fun _ _ => ["a1"; "a2"];
     Execute := fun _ => Some (ExternalError "ImageSeriesReader: cannot read series");
     WriteImage := fun _ => None |}.

Definition env_exit (code : Z) : SegEnv :=
  {| Popen := fun _ fs =>
       Runs ["one" +:+ nl; "two  " +:+ nl; "three" +:+ nl] code fs |}.

Definition fs_out : FS := <[ ["/"; "out"] := Dir ]> ∅.

(** A process whose output stops being text after its first line; it had
    made the output folder by then. *)
Definition env_garbled : SegEnv :=
  {| Popen := fun _ _ =>
       ReadFails ["one" +:+ nl]
         (UnicodeDecodeError
            "'utf-8' codec can't decode byte 0xff in position 0: invalid start byte")
         fs_out |}.

(** A session: both folders chosen, the conversion started and its three
    signals handled. *)
Definition session_converted : list App.input :=
  [ App.ClickSelectDicom "/in"; App.ClickSelectOutput "/out";
    App.ClickConvert env_two_series ∅;
    App.Deliver 0; App.Deliver 0; App.Deliver 0 ].

(** A session in which the conversion fails: the series cannot be read;
    the worker's two log lines are handled. *)
Definition session_failed : list App.input :=
  [ App.ClickSelectDicom "/in"; App.ClickSelectOutput "/out";
    App.ClickConvert env_decode_fails ∅;
    App.Deliver 0; App.Deliver 0 ].

(** ... then TotalSegmentator and its task "total" chosen, a second
    conversion started and, while it runs, the segmentation. *)
Definition session_both : list App.input :=
  session_converted ++
  [ App.ChooseMethod 1; App.ChooseTask 1;
    App.ClickConvert env_two_series fs_out;
    App.ClickRun (env_exit 0) fs_out ].

(** ... or the MR task "total_mr" chosen. *)
Definition session_mr : list App.input :=
  session_converted ++ [ App.ChooseMethod 1; App.ChooseTask 26 ].

Definition worker_total : SegmentationWorker.t :=
  {| SegmentationWorker.nifti_path := ["/"; "out"; "ct.nii.gz"];
     SegmentationWorker.output_dir := ["/"; "out"];
     SegmentationWorker.method := "TotalSegmentator";
     SegmentationWorker.model := "low";
     SegmentationWorker.device := "gpu";
     SegmentationWorker.ts_task := "total" |}.

Definition worker_skelly : SegmentationWorker.t :=
  {| SegmentationWorker.nifti_path := ["/"; "out"; "ct.nii.gz"];
     SegmentationWorker.output_dir := ["/"; "out"];
     SegmentationWorker.method := "Skellytour";
     SegmentationWorker.model := "medium";
     SegmentationWorker.device := "cpu";
     SegmentationWorker.ts_task := "--- CT (default) ---" |}.

Definition worker_total_mr : SegmentationWorker.t :=
  {| SegmentationWorker.nifti_path := ["/"; "out"; "ct.nii.gz"];
     SegmentationWorker.output_dir := ["/"; "out"];
     SegmentationWorker.method := "TotalSegmentator";
     SegmentationWorker.model := "low";
     SegmentationWorker.device := "gpu";
     SegmentationWorker.ts_task := "total_mr" |}.

(* ===================================================================== *)
(** * The built-ins, run                                                  *)
(* ===================================================================== *)

Example startswith_header : Py.startswith "--- CT (default) ---" "---" = true.
Proof. reflexivity. Qed.
Example endswith_mr : Py.endswith "total_mr" "_mr" = true.
Proof. reflexivity. Qed.
Example endswith_not_mr : Py.endswith "total" "_mr" = false.
Proof. reflexivity. Qed.
Example rstrip_newline : Py.rstrip ("Predicting...  " +:+ String (ascii_of_nat 10) "") = "Predicting...".
Proof. reflexivity. Qed.
Example rstrip_inner : Py.rstrip "a b " = "a b".
Proof. reflexivity. Qed.
Example split_on_ex : Py.split_on "/" "/out//ct" = [""; "out"; ""; "ct"].
Proof. reflexivity. Qed.
Example max_key_first : Py.max_key List.length [[1]; [1;2]; [3;4]; [5]] = Some [1;2].
Proof. reflexivity. Qed.

Example of_str_out : PurePath.of_str "/out" = ["/"; "out"].
Proof. reflexivity. Qed.
Example of_str_messy : PurePath.of_str "//a/./b//c/" = ["//"; "a"; "b"; "c"].
Proof. reflexivity. Qed.
Example of_str_three : PurePath.of_str "///a" = ["/"; "a"].
Proof. reflexivity. Qed.
Example of_str_rel : PurePath.of_str "a/../b" = ["a"; ".."; "b"].
Proof. reflexivity. Qed.
Example of_str_empty : PurePath.str (PurePath.of_str "") = ".".
Proof. reflexivity. Qed.
Example join_out : PurePath.str (PurePath.of_str "/out" // "ct.nii.gz") = "/out/ct.nii.gz".
Proof. reflexivity. Qed.
Example join_root : PurePath.str (PurePath.of_str "/" // "x") = "/x".
Proof. reflexivity. Qed.
Example mkdir_deep :
  PathIO.mkdir true true ∅ (PurePath.of_str "/a/b") = Return (<[ ["/";"a";"b"] := Dir]> (<[ ["/";"a"] := Dir]> ∅)).
Proof. vm_compute. reflexivity. Qed.
Example mkdir_flat_missing :
  PathIO.mkdir false true ∅ (PurePath.of_str "/a/b") = Raise (FileNotFoundError ["/";"a";"b"]).
Proof. vm_compute. reflexivity. Qed.
Example mkdir_flat_exists :
  PathIO.mkdir false true (<[ ["/";"a"] := Dir]> ∅) (PurePath.of_str "/a") = Return (<[ ["/";"a"] := Dir]> ∅).
Proof. vm_compute. reflexivity. Qed.
Example mkdir_flat_file :
  PathIO.mkdir false true (<[ ["/";"a"] := File]> ∅) (PurePath.of_str "/a") = Raise (FileExistsError ["/";"a"]).
Proof. vm_compute. reflexivity. Qed.

Example mkdir_under_a_file :
  PathIO.mkdir false true (<[ ["/";"f"] := File]> ∅) ["/";"f";"out";"seg"]
  = Raise (NotADirectoryError ["/";"f";"out";"seg"])
  /\ PathIO.mkdir true true (<[ ["/";"f"] := File]> ∅) ["/";"f";"out"]
    = Raise (NotADirectoryError ["/";"f";"out"]).
Proof. split; vm_compute; reflexivity. Qed.
Example repr_plain : Py.repr "/out/x" = "'/out/x'".
Proof. reflexivity. Qed.
Example repr_apostrophe :
  Py.repr "/o'ut" = String (ascii_of_nat 34) ("/o'ut" +:+ String (ascii_of_nat 34) "").
Proof. reflexivity. Qed.
Example str_exn_missing :
  str_exn (FileNotFoundError ["/"; "out"; "x"])
  = "[Errno 2] No such file or directory: '/out/x'".
Proof. reflexivity. Qed.

(* ===================================================================== *)
(** * The worker monad: equations                                         *)
(* ===================================================================== *)

Lemma for_each_emit {A} (g : A -> event) (xs : list A) (fs : FS) :
  for_each xs (fun x => emit (g x)) fs = (List.map g xs, fs, Return tt).
Proof.
  induction xs as [|x xs IH]; simpl; [reflexivity|].
  unfold bind. simpl. rewrite IH. reflexivity.
Qed.

(** [_run] in closed form: the launch, one log line per line of output in
    the order of the output, the wait, and only then the verdict. *)
Lemma _run_eq (E : SegEnv) (cmd : list string) (fs : FS) :
  SegmentationWorker._run E cmd fs =
  match Popen E cmd fs with
  | LaunchFails e => ([CallPopen cmd], fs, Raise e)
  | ReadFails stdout e after =>
      (CallPopen cmd :: List.map (fun l => EmitLog (Py.rstrip l)) stdout,
       after, Raise e)
  | Runs stdout returncode after =>
      (CallPopen cmd :: List.map (fun l => EmitLog (Py.rstrip l)) stdout ++ [CallWait],
       after,
       if (returncode =? 0)%Z then Return tt
       else Raise (RuntimeError "Segmentation failed"))
  end.
Proof.
  unfold SegmentationWorker._run, bind. simpl.
  destruct (Popen E cmd fs) as [e|stdout e after|stdout rc after];
    [reflexivity| |].
  - rewrite for_each_emit. simpl. rewrite List.app_nil_r. reflexivity.
  - rewrite for_each_emit. simpl. destruct (rc =? 0)%Z; reflexivity.
Qed.

Lemma quiet_app (a b : list event) : quiet (a ++ b) = quiet a && quiet b.
Proof. unfold quiet. apply forallb_app. Qed.

Lemma quiet_logs {A} (g : A -> string) (xs : list A) :
  quiet (List.map (fun x => EmitLog (g x)) xs) = true.
Proof. induction xs as [|x xs IH]; simpl; [reflexivity | exact IH]. Qed.

Lemma count_logs {A} (g : A -> string) (xs : list A) :
  List.length (List.filter is_log (List.map (fun x => EmitLog (g x)) xs))
  = List.length xs.
Proof. induction xs as [|x xs IH]; simpl; [reflexivity | f_equal; exact IH]. Qed.

Lemma _run_quiet (E : SegEnv) (cmd : list string) (fs : FS) :
  quiet (trace_of (SegmentationWorker._run E cmd fs)) = true.
Proof.
  rewrite _run_eq.
  destruct (Popen E cmd fs) as [e|stdout e after|stdout rc after];
    [reflexivity| |]; unfold trace_of; simpl.
  - apply quiet_logs.
  - rewrite quiet_app, quiet_logs. reflexivity.
Qed.

(* ===================================================================== *)
(** * The process runner (C4)                                             *)
(* ===================================================================== *)

(** C4, as amended. When the external process prints N lines and exits with
    a non-zero code, [_run] launches it, emits exactly N log signals, the
    stripped lines in the order of the output, waits, and only then raises:
    a [RuntimeError] whose single argument is the fixed text
    "Segmentation failed", whatever the command was. *)
Theorem run_failure_after_all_lines
    (E : SegEnv) (cmd : list string) (fs after : FS)
    (stdout : list string) (rc : Z) :
  Popen E cmd fs = Runs stdout rc after ->
  rc <> 0%Z ->
  SegmentationWorker._run E cmd fs =
    (CallPopen cmd :: List.map (fun l => EmitLog (Py.rstrip l)) stdout ++ [CallWait],
     after, Raise (RuntimeError "Segmentation failed"))
  /\ List.length (List.filter is_log (trace_of (SegmentationWorker._run E cmd fs)))
     = List.length stdout.
Proof.
  intros HP Hrc. rewrite _run_eq, HP.
  apply Z.eqb_neq in Hrc. rewrite Hrc. split; [reflexivity|].
  unfold trace_of. simpl. rewrite List.filter_app. simpl.
  rewrite List.app_nil_r. apply count_logs.
Qed.

Lemma run_failure_after_all_lines_witness :
  SegmentationWorker._run (env_exit 1) ["skellytour"] fs_out =
    ([CallPopen ["skellytour"]; EmitLog "one"; EmitLog "two"; EmitLog "three";
      CallWait],
     fs_out, Raise (RuntimeError "Segmentation failed")).
Proof.
  pose proof (run_failure_after_all_lines (env_exit 1) ["skellytour"] fs_out
                fs_out ["one" +:+ nl; "two  " +:+ nl; "three" +:+ nl] 1%Z
                eq_refl ltac:(discriminate)) as [H _].
  exact H.
Defined.

(** C4, as stated, fails: the failure raised after a run of "skellytour"
    that exits with code 1 does not carry the name of the command. *)
Lemma failure_does_not_name_command :
  ~ failure_names_command (env_exit 1)
      ["skellytour"; "-i"; "/out/ct.nii.gz"; "-o"; "/out"; "-m"; "low";
       "-d"; "gpu"; "--overwrite"] fs_out.
Proof.
  intros H.
  destruct (H _ 1%Z fs_out eq_refl ltac:(discriminate)) as (e & Hrun & Hc).
  rewrite _run_eq in Hrun. simpl in Hrun.
  injection Hrun as <-. vm_compute in Hc. discriminate Hc.
Qed.

(* ===================================================================== *)
(** * The segmentation worker (C7, C10)                                   *)
(* ===================================================================== *)

Lemma run_totalsegmentator_eq (E : SegEnv) (self : SegmentationWorker.t) (fs : FS) :
  SegmentationWorker.run_totalsegmentator E self fs =
  let out := SegmentationWorker.ts_out_dir self in
  let line := EmitLog ("Running TotalSegmentator (task: "
                       +:+ SegmentationWorker.ts_task self +:+ ")") in
  match PathIO.mkdir false true fs out with
  | Return fs1 =>
      match SegmentationWorker._run E (SegmentationWorker.totalsegmentator_cmd self) fs1 with
      | (tr, fs2, r) => (line :: CallMkdir out :: tr, fs2, r)
      end
  | Raise e => ([line; CallMkdir out], fs, Raise e)
  end.
Proof.
  unfold SegmentationWorker.run_totalsegmentator, bind, path_mkdir, PathIO.mkdir.
  simpl.
  destruct (PathIO.mkdir_flat true fs (SegmentationWorker.ts_out_dir self))
    as [fs1|e]; [|reflexivity].
  destruct (SegmentationWorker._run E _ fs1) as [[tr fs2] r]. reflexivity.
Qed.

Lemma run_skellytour_eq (E : SegEnv) (self : SegmentationWorker.t) (fs : FS) :
  SegmentationWorker.run_skellytour E self fs =
  match SegmentationWorker._run E (SegmentationWorker.skellytour_cmd self) fs with
  | (tr, fs1, r) => (EmitLog "Running Skellytour..." :: tr, fs1, r)
  end.
Proof.
  unfold SegmentationWorker.run_skellytour, bind. simpl.
  destruct (SegmentationWorker._run E _ fs) as [[tr fs1] r]. reflexivity.
Qed.

Lemma seg_engine_quiet (E : SegEnv) (self : SegmentationWorker.t) (fs : FS) :
  quiet (trace_of (seg_engine E self fs)) = true.
Proof.
  unfold seg_engine.
  destruct (String.eqb (SegmentationWorker.method self) "Skellytour").
  - rewrite run_skellytour_eq.
    pose proof (_run_quiet E (SegmentationWorker.skellytour_cmd self) fs) as Hq.
    destruct (SegmentationWorker._run E _ fs) as [[tr fs1] r]. exact Hq.
  - rewrite run_totalsegmentator_eq. cbv zeta.
    destruct (PathIO.mkdir false true fs (SegmentationWorker.ts_out_dir self))
      as [fs1|e]; [|reflexivity].
    pose proof (_run_quiet E (SegmentationWorker.totalsegmentator_cmd self) fs1) as Hq.
    destruct (SegmentationWorker._run E _ fs1) as [[tr fs2] r]. exact Hq.
Qed.

(** [run] in closed form: whatever the engine did, the completion signal
    comes last; an exception only adds its log line before it. *)
Lemma seg_run_eq (E : SegEnv) (self : SegmentationWorker.t) (fs : FS) :
  SegmentationWorker.run E self fs =
  match seg_engine E self fs with
  | (tr, fs1, Return _) => (tr ++ [EmitFinishedSeg], fs1, Return tt)
  | (tr, fs1, Raise e) =>
      (tr ++ [EmitLog ("ERROR: " +:+ str_exn e); EmitFinishedSeg], fs1, Return tt)
  end.
Proof.
  unfold SegmentationWorker.run, SegmentationWorker.run_body, try_except, bind.
  fold (seg_engine E self).
  destruct (seg_engine E self fs) as [[tr fs1] [[]|e]]; reflexivity.
Qed.

Lemma quiet_no_finished (tr : list event) :
  quiet tr = true -> List.filter is_finished tr = [].
Proof.
  induction tr as [|ev tr IH]; simpl; [reflexivity|].
  intros H. apply andb_prop in H as [Hev Htr].
  destruct (is_finished ev); [discriminate|]. auto.
Qed.

(** Every run returns normally; its trace is a trace without completion
    signal followed by the completion signal. *)
Lemma seg_worker_shape (E : SegEnv) (self : SegmentationWorker.t) (fs : FS) :
  result_of (SegmentationWorker.run E self fs) = Return tt
  /\ exists tr,
       trace_of (SegmentationWorker.run E self fs) = tr ++ [EmitFinishedSeg]
       /\ quiet tr = true.
Proof.
  rewrite seg_run_eq.
  pose proof (seg_engine_quiet E self fs) as Hq.
  destruct (seg_engine E self fs) as [[tr fs1] [[]|e]]; unfold trace_of in *;
    simpl in *.
  - split; [reflexivity|]. exists tr. split; [reflexivity | exact Hq].
  - split; [reflexivity|].
    exists (tr ++ [EmitLog ("ERROR: " +:+ str_exn e)]).
    rewrite <- List.app_assoc. split; [reflexivity|].
    rewrite quiet_app, Hq. reflexivity.
Qed.

(** C10. Every run of the segmentation worker returns normally and emits
    its completion signal exactly once, as the last thing it does, be it
    after a success or after an exception; the signal has no argument, so
    the slot it is connected to does the same in both cases: it enables the
    run button and logs "Done.". *)
Theorem seg_worker_finishes_once
    (E : SegEnv) (self : SegmentationWorker.t) (fs : FS) :
  result_of (SegmentationWorker.run E self fs) = Return tt
  /\ (exists tr,
        trace_of (SegmentationWorker.run E self fs) = tr ++ [EmitFinishedSeg]
        /\ quiet tr = true)
  /\ List.length (List.filter is_finished
                    (trace_of (SegmentationWorker.run E self fs))) = 1%nat
  /\ (forall u,
        App.slot u EmitFinishedSeg = SegmentationUI.on_finished u
        /\ SegmentationUI.run_btn (SegmentationUI.on_finished u) = true
        /\ SegmentationUI.log_box (SegmentationUI.on_finished u)
           = SegmentationUI.log_box u ++ [nl +:+ "Done." +:+ nl]).
Proof.
  destruct (seg_worker_shape E self fs) as (Hr & tr & Htr & Hq).
  split; [exact Hr|]. split; [exists tr; split; assumption|].
  split.
  - rewrite Htr, List.filter_app, (quiet_no_finished _ Hq). reflexivity.
  - intros u. repeat split.
Qed.

(** After a failed run the widget is told exactly what it is told after a
    successful one. *)
Example seg_failed_run_still_done :
  List.filter App.is_signal
    (trace_of (SegmentationWorker.run (env_exit 1) worker_total fs_out))
  = [EmitLog "Running TotalSegmentator (task: total)";
     EmitLog "one"; EmitLog "two"; EmitLog "three";
     EmitLog "ERROR: Segmentation failed"; EmitFinishedSeg]
  /\ List.filter is_finished
       (trace_of (SegmentationWorker.run (env_exit 0) worker_total fs_out))
     = [EmitFinishedSeg].
Proof. split; vm_compute; reflexivity. Qed.

(** The name of a task's output directory is one relative path component,
    for every task of the catalogue. *)
Lemma catalog_segment (t : string) :
  In t catalog_tasks ->
  PurePath.of_str ("segmentations_" +:+ t) = ["segmentations_" +:+ t].
Proof.
  assert (H : forallb
            (fun t => bool_decide
               (PurePath.of_str ("segmentations_" +:+ t)
                = ["segmentations_" +:+ t]))
            catalog_tasks = true) by (vm_compute; reflexivity).
  rewrite forallb_forall in H. intros Hin.
  apply H in Hin. apply bool_decide_eq_true in Hin. exact Hin.
Qed.

Lemma catalog_out_dir (self : SegmentationWorker.t) :
  In (SegmentationWorker.ts_task self) catalog_tasks ->
  SegmentationWorker.ts_out_dir self =
  SegmentationWorker.output_dir self
    ++ ["segmentations_" +:+ SegmentationWorker.ts_task self].
Proof.
  intros Hin. unfold SegmentationWorker.ts_out_dir, PurePath.joinpath.
  rewrite (catalog_segment _ Hin). reflexivity.
Qed.

(** ** Resolving paths *)

Lemma resolve_snoc (fs : FS) (d : Path) (x : string) :
  PurePath.is_anchor (d ++ [x]) = false ->
  Os.resolve fs (d ++ [x]) =
  match Os.resolve fs d with
  | Os.Found Dir =>
      match fs !! (d ++ [x]) with
      | Some n => Os.Found n
      | None => Os.NoEntry
      end
  | Os.Found File | Os.NotADir => Os.NotADir
  | Os.NoEntry => Os.NoEntry
  end.
Proof.
  intros Ha. unfold Os.resolve. rewrite List.rev_app_distr.
  cbn [List.rev List.app Os.resolve_rev].
  rewrite List.rev_involutive, Ha. reflexivity.
Qed.

(** An entry added at [p] does not show when a shorter path is resolved. *)
Lemma resolve_insert_short (fs : FS) (p : Path) (n : node) (rq : list string) :
  (List.length rq < List.length p)%nat ->
  Os.resolve_rev (<[p := n]> fs) rq = Os.resolve_rev fs rq.
Proof.
  induction rq as [|c rq IH]; intros Hl; [reflexivity|].
  cbn [Os.resolve_rev].
  destruct (PurePath.is_anchor (rev (c :: rq))); [reflexivity|].
  rewrite IH by (simpl in Hl; lia).
  rewrite lookup_insert_ne; [reflexivity|].
  intros Heq. rewrite Heq, List.length_rev in Hl. lia.
Qed.

Lemma is_dir_insert_longer (fs : FS) (p q : Path) (n : node) :
  (List.length q < List.length p)%nat ->
  Os.resolve (<[p := n]> fs) q = Os.resolve fs q.
Proof.
  intros Hl. unfold Os.resolve. apply resolve_insert_short.
  rewrite List.length_rev. exact Hl.
Qed.

(** A path that is no anchor is its parent and its last component. *)
Lemma not_anchor_split (p : Path) :
  PurePath.is_anchor p = false ->
  exists x, p = PurePath.parent p ++ [x].
Proof.
  intros Ha. unfold PurePath.parent. rewrite Ha.
  destruct (exists_last (l := p)) as (d & x & Hp).
  - intros ->. discriminate Ha.
  - exists x. rewrite Hp at 1. rewrite Hp, removelast_last. reflexivity.
Qed.

(** What [os.mkdir] has done when it returns: there was nothing at [p],
    whose parent is a directory, and [p] is a directory now. *)
Lemma os_mkdir_return (fs fs' : FS) (p : Path) :
  Os.mkdir fs p = Return fs' ->
  fs' = <[p := Dir]> fs /\ fs !! p = None /\ Os.is_dir fs' p = true.
Proof.
  unfold Os.mkdir.
  destruct (Os.resolve fs (PurePath.parent p)) as [[|]| |] eqn:Hpar;
    try discriminate.
  destruct (Os.stat fs p) eqn:Hst; [discriminate|]. intros [= <-].
  destruct (PurePath.is_anchor p) eqn:Ha.
  { exfalso. unfold PurePath.parent in Hpar. rewrite Ha in Hpar.
    unfold Os.stat in Hst. rewrite Hpar in Hst. discriminate Hst. }
  destruct (not_anchor_split p Ha) as [x Hp].
  set (d := PurePath.parent p) in *.
  assert (Ha' : PurePath.is_anchor (d ++ [x]) = false) by (rewrite <- Hp; exact Ha).
  unfold Os.stat in Hst. rewrite Hp in Hst.
  rewrite (resolve_snoc fs d x Ha'), Hpar in Hst. rewrite <- Hp in Hst.
  split; [reflexivity|]. split.
  - destruct (fs !! p); [discriminate | reflexivity].
  - unfold Os.is_dir, Os.stat. rewrite Hp at 2.
    rewrite (resolve_snoc _ d x Ha'), <- Hp.
    rewrite is_dir_insert_longer
      by (rewrite Hp, List.length_app; simpl; lia).
    rewrite Hpar, lookup_insert_eq. reflexivity.
Qed.

(** ** Making directories writes no file *)

Lemma os_mkdir_files (fs fs' : FS) (p : Path) :
  Os.mkdir fs p = Return fs' ->
  forall q, fs' !! q = Some File -> fs !! q = Some File.
Proof.
  intros H q Hq. destruct (os_mkdir_return _ _ _ H) as (-> & _ & _).
  destruct (decide (p = q)) as [->|Hne].
  - rewrite lookup_insert_eq in Hq. discriminate.
  - rewrite lookup_insert_ne in Hq by exact Hne. exact Hq.
Qed.

Lemma mkdir_flat_files (exist_ok : bool) (fs fs' : FS) (p : Path) :
  PathIO.mkdir_flat exist_ok fs p = Return fs' ->
  forall q, fs' !! q = Some File -> fs !! q = Some File.
Proof.
  unfold PathIO.mkdir_flat.
  destruct (Os.mkdir fs p) as [fs1|e] eqn:Hos.
  - intros [= <-]. exact (os_mkdir_files _ _ _ Hos).
  - destruct e; try discriminate;
      (destruct (negb exist_ok || negb (Os.is_dir fs p)); [discriminate|]);
      intros [= <-] q Hq; exact Hq.
Qed.

Lemma mkdir_parents_rev_files (rp : list string) :
  forall (exist_ok : bool) (fs fs' : FS),
    PathIO.mkdir_parents_rev exist_ok fs rp = Return fs' ->
    forall q, fs' !! q = Some File -> fs !! q = Some File.
Proof.
  induction rp as [|x rp IH]; intros exist_ok fs fs'; simpl.
  - destruct exist_ok; simpl; [|discriminate].
    intros [= <-] q Hq; exact Hq.
  - destruct (Os.mkdir fs (rev rp ++ [x])) as [fs1|e] eqn:Hos.
    + intros [= <-]. exact (os_mkdir_files _ _ _ Hos).
    + destruct e;
        try (destruct (negb exist_ok || negb (Os.is_dir fs (rev rp ++ [x])));
             [discriminate|]; intros [= <-] q Hq; exact Hq).
      destruct (PurePath.is_anchor (rev rp ++ [x])); [discriminate|].
      destruct (PathIO.mkdir_parents_rev true fs rp) as [fs1|e] eqn:Hpar;
        [|discriminate].
      intros Hflat q Hq.
      apply (IH _ _ _ Hpar). exact (mkdir_flat_files _ _ _ _ Hflat q Hq).
Qed.

Lemma path_mkdir_files (parents exist_ok : bool) (fs fs' : FS) (p : Path) :
  PathIO.mkdir parents exist_ok fs p = Return fs' ->
  forall q, fs' !! q = Some File -> fs !! q = Some File.
Proof.
  unfold PathIO.mkdir. destruct parents.
  - apply mkdir_parents_rev_files.
  - apply mkdir_flat_files.
Qed.

(** ** What making a directory leaves in place *)

Lemma os_mkdir_keeps (fs fs' : FS) (p : Path) :
  Os.mkdir fs p = Return fs' ->
  Os.is_dir fs' p = true
  /\ forall q n, fs !! q = Some n -> fs' !! q = Some n.
Proof.
  intros H. destruct (os_mkdir_return _ _ _ H) as (Hfs & Hnone & Hd).
  split; [exact Hd|]. intros q n Hq. subst fs'.
  destruct (decide (p = q)) as [->|Hne]; [congruence|].
  rewrite lookup_insert_ne by exact Hne. exact Hq.
Qed.

Lemma mkdir_flat_keeps (exist_ok : bool) (fs fs' : FS) (p : Path) :
  PathIO.mkdir_flat exist_ok fs p = Return fs' ->
  Os.is_dir fs' p = true
  /\ forall q n, fs !! q = Some n -> fs' !! q = Some n.
Proof.
  unfold PathIO.mkdir_flat.
  destruct (Os.mkdir fs p) as [fs1|e] eqn:Hos.
  - intros [= <-]. exact (os_mkdir_keeps _ _ _ Hos).
  - destruct e; try discriminate;
      (destruct exist_ok; [|discriminate]);
      (destruct (Os.is_dir fs p) eqn:Hd; [|discriminate]);
      simpl; intros [= <-]; (split; [exact Hd | auto]).
Qed.

Lemma mkdir_parents_rev_keeps (rp : list string) :
  forall (exist_ok : bool) (fs fs' : FS),
    PathIO.mkdir_parents_rev exist_ok fs rp = Return fs' ->
    Os.is_dir fs' (rev rp) = true
    /\ forall q n, fs !! q = Some n -> fs' !! q = Some n.
Proof.
  induction rp as [|x rp IH]; intros exist_ok fs fs'.
  - simpl. destruct exist_ok; simpl; [|discriminate].
    intros [= <-]. split; [reflexivity | auto].
  - cbn [PathIO.mkdir_parents_rev]. cbv zeta.
    destruct (Os.mkdir fs (rev (x :: rp))) as [fs1|e] eqn:Hos.
    + intros [= <-]. exact (os_mkdir_keeps _ _ _ Hos).
    + destruct e;
        try ((destruct exist_ok; [|discriminate]);
             (destruct (Os.is_dir fs (rev (x :: rp))) eqn:Hd; [|discriminate]);
             simpl; intros [= <-]; (split; [exact Hd | auto])).
      destruct (PurePath.is_anchor (rev (x :: rp))); [discriminate|].
      destruct (PathIO.mkdir_parents_rev true fs rp) as [fs1|e] eqn:Hpar;
        [|discriminate].
      intros Hflat.
      destruct (IH _ _ _ Hpar) as [_ Hk1].
      destruct (mkdir_flat_keeps _ _ _ _ Hflat) as [Hd Hk2].
      split; [exact Hd|]. intros q n Hq. apply Hk2, Hk1, Hq.
Qed.

(** A successful [mkdir], with or without [parents], ends with a directory
    at the path and removes or replaces nothing. *)
Lemma path_mkdir_keeps (parents exist_ok : bool) (fs fs' : FS) (p : Path) :
  PathIO.mkdir parents exist_ok fs p = Return fs' ->
  Os.is_dir fs' p = true
  /\ forall q n, fs !! q = Some n -> fs' !! q = Some n.
Proof.
  unfold PathIO.mkdir. destruct parents.
  - intros H. apply mkdir_parents_rev_keeps in H.
    rewrite rev_involutive in H. exact H.
  - apply mkdir_flat_keeps.
Qed.

Lemma parent_snoc (d : Path) (t : string) :
  PurePath.is_anchor (d ++ ["segmentations_" +:+ t]) = false
  /\ PurePath.parent (d ++ ["segmentations_" +:+ t]) = d.
Proof.
  assert (Ha : PurePath.is_anchor (d ++ ["segmentations_" +:+ t]) = false).
  { destruct d as [|a [|b d]]; reflexivity. }
  split; [exact Ha|].
  unfold PurePath.parent. rewrite Ha. apply removelast_last.
Qed.

(** [mkdir(exist_ok=True)] of a child of an existing directory: the child
    is created when nothing is there and left alone when it is a
    directory. *)
Lemma mkdir_flat_child (fs : FS) (d : Path) (t : string) :
  let out := d ++ ["segmentations_" +:+ t] in
  Os.is_dir fs d = true ->
  Os.is_file fs out = false ->
  PathIO.mkdir false true fs out =
  Return (if Os.is_dir fs out then fs else <[out := Dir]> fs).
Proof.
  intros out Hd Hf. subst out.
  destruct (parent_snoc d t) as [Ha Hp].
  unfold PathIO.mkdir, PathIO.mkdir_flat, Os.mkdir. rewrite Hp.
  unfold Os.is_dir, Os.is_file, Os.stat in *.
  rewrite (resolve_snoc fs d _ Ha) in *.
  destruct (Os.resolve fs d) as [[|]| |]; try discriminate.
  destruct (fs !! (d ++ ["segmentations_" +:+ t])) as [[|]|];
    try discriminate; reflexivity.
Qed.

(** C7, as amended. A TotalSegmentator worker for a task [t] of the
    catalogue, volume [v] and an output directory [d] that exists, where
    [d/segmentations_<t>] is no regular file, first makes sure that
    [d/segmentations_<t>] is a directory (creating it when nothing is
    there, changing nothing else) and then, in that file system, launches
    [TotalSegmentator -i v -o d/segmentations_<t> -ta t]; what follows is
    decided by the process. *)
Theorem totalsegmentator_dispatch
    (E : SegEnv) (self : SegmentationWorker.t) (fs : FS) :
  let t := SegmentationWorker.ts_task self in
  let d := SegmentationWorker.output_dir self in
  let v := SegmentationWorker.nifti_path self in
  let out := d ++ ["segmentations_" +:+ t] in
  let cmd := ["TotalSegmentator"; "-i"; PurePath.str v;
              "-o"; PurePath.str out; "-ta"; t] in
  SegmentationWorker.method self = "TotalSegmentator" ->
  In t catalog_tasks ->
  Os.is_dir fs d = true ->
  Os.is_file fs out = false ->
  let fs1 := if Os.is_dir fs out then fs else <[out := Dir]> fs in
  Os.is_dir fs1 out = true
  /\ (forall q n, fs !! q = Some n -> fs1 !! q = Some n)
  /\ (forall q, fs1 !! q = Some File -> fs !! q = Some File)
  /\ SegmentationWorker.run E self fs =
       (EmitLog ("Running TotalSegmentator (task: " +:+ t +:+ ")")
          :: CallMkdir out :: CallPopen cmd ::
          match Popen E cmd fs1 with
          | LaunchFails e =>
              [EmitLog ("ERROR: " +:+ str_exn e); EmitFinishedSeg]
          | ReadFails stdout e _ =>
              List.map (fun l => EmitLog (Py.rstrip l)) stdout ++
              [EmitLog ("ERROR: " +:+ str_exn e); EmitFinishedSeg]
          | Runs stdout rc _ =>
              List.map (fun l => EmitLog (Py.rstrip l)) stdout ++
              CallWait ::
              (if (rc =? 0)%Z then [EmitFinishedSeg]
               else [EmitLog "ERROR: Segmentation failed"; EmitFinishedSeg])
          end,
        match Popen E cmd fs1 with
        | LaunchFails _ => fs1
        | ReadFails _ _ after | Runs _ _ after => after
        end,
        Return tt).
Proof.
  intros t d v out cmd Hm Hin Hd Hf fs1.
  pose proof (catalog_out_dir self Hin) as Hout. fold t d out in Hout.
  pose proof (mkdir_flat_child fs d t Hd Hf) as Hmk. fold out in Hmk.
  cbv zeta in Hmk. fold fs1 in Hmk.
  assert (Hcmd : SegmentationWorker.totalsegmentator_cmd self = cmd).
  { unfold SegmentationWorker.totalsegmentator_cmd. rewrite Hout. reflexivity. }
  destruct (mkdir_flat_keeps _ _ _ _ Hmk) as [Hdir Hkeep].
  split; [exact Hdir|]. split; [exact Hkeep|].
  split; [exact (mkdir_flat_files _ _ _ _ Hmk)|].
  rewrite seg_run_eq. unfold seg_engine. rewrite Hm.
  change ("TotalSegmentator" =? "Skellytour")%string with false. cbv iota.
  rewrite run_totalsegmentator_eq. cbv zeta. rewrite Hout, Hmk, Hcmd, _run_eq.
  fold t.
  destruct (Popen E cmd fs1) as [e|stdout e after|stdout rc after];
    [reflexivity | |].
  - reflexivity.
  - destruct (rc =? 0)%Z; simpl; rewrite <- List.app_assoc; reflexivity.
Qed.

(** The scenario of the specification: task "total", volume
    [/out/ct.nii.gz], output directory [/out]. *)
Lemma totalsegmentator_dispatch_witness :
  SegmentationWorker.run (env_exit 0) worker_total fs_out =
    ([EmitLog "Running TotalSegmentator (task: total)";
      CallMkdir ["/"; "out"; "segmentations_total"];
      CallPopen ["TotalSegmentator"; "-i"; "/out/ct.nii.gz";
                 "-o"; "/out/segmentations_total"; "-ta"; "total"];
      EmitLog "one"; EmitLog "two"; EmitLog "three"; CallWait;
      EmitFinishedSeg],
     <[ ["/"; "out"; "segmentations_total"] := Dir ]> fs_out, Return tt).
Proof.
  destruct (totalsegmentator_dispatch (env_exit 0) worker_total fs_out)
    as (_ & _ & _ & H);
    [reflexivity | vm_compute; left; reflexivity | vm_compute; reflexivity
     | vm_compute; reflexivity |].
  rewrite H. vm_compute. reflexivity.
Defined.

(** Without the output directory, [mkdir(exist_ok=True)] raises and
    nothing is launched. *)
Example totalsegmentator_missing_output_dir :
  trace_of (SegmentationWorker.run (env_exit 0) worker_total ∅)
  = [EmitLog "Running TotalSegmentator (task: total)";
     CallMkdir ["/"; "out"; "segmentations_total"];
     EmitLog "ERROR: [Errno 2] No such file or directory: '/out/segmentations_total'";
     EmitFinishedSeg].
Proof. vm_compute. reflexivity. Qed.

(** C7, as stated, fails: with task "total" and an output directory
    [/out] that does not exist, the directory is not made and nothing is
    launched. *)
Lemma dispatch_needs_output_dir :
  ~ dispatch_always_launches (env_exit 0) worker_total ∅.
Proof.
  intros H.
  destruct (H eq_refl ltac:(vm_compute; left; reflexivity)) as [rest Hr].
  vm_compute in Hr. discriminate Hr.
Qed.

(* ===================================================================== *)
(** * The conversion worker (C2, C3, C9)                                  *)
(* ===================================================================== *)

Section Conversion.

Variable E : ConvEnv.
Variable self : DicomToNiftiWorker.t.

Let dir := PurePath.str (DicomToNiftiWorker.dicom_dir self).
Let out := DicomToNiftiWorker.output_dir self.
Let nifti := out // "ct.nii.gz".
Let count := fun sid => List.length (GetGDCMSeriesFileNames E dir sid).
Let reading := EmitLog "Reading DICOM folder...".

(** The body of [run] in closed form, one case per way it can end. *)
Lemma conv_run_body_eq (fs : FS) :
  DicomToNiftiWorker.run_body E self fs =
  match PathIO.mkdir true true fs out with
  | Raise e => ([CallMkdir out], fs, Raise e)
  | Return fs1 =>
      match GetGDCMSeriesIDs E dir with
      | [] =>
          ([CallMkdir out; reading], fs1,
           Raise (RuntimeError "No DICOM series found"))
      | x :: xs =>
          let files := GetGDCMSeriesFileNames E dir (Py.max_from count x xs) in
          match Execute E files with
          | Some e => ([CallMkdir out; reading; CallExecute files], fs1, Raise e)
          | None =>
              match WriteImage E (PurePath.str nifti) with
              | Some e =>
                  ([CallMkdir out; reading; CallExecute files;
                    CallWriteImage (PurePath.str nifti)], fs1, Raise e)
              | None =>
                  ([CallMkdir out; reading; CallExecute files;
                    CallWriteImage (PurePath.str nifti);
                    EmitLog ("NIfTI created: " +:+ PurePath.str nifti);
                    EmitFinishedConv nifti],
                   <[nifti := File]> fs1, Return tt)
              end
          end
      end
  end.
Proof.
  unfold DicomToNiftiWorker.run_body, bind, path_mkdir.
  fold out dir nifti.
  destruct (PathIO.mkdir true true fs out) as [fs1|e]; [|reflexivity].
  simpl.
  destruct (GetGDCMSeriesIDs E dir) as [|x xs]; [reflexivity|].
  unfold DicomToNiftiWorker.best_series, Py.max_key. fold dir count.
  unfold DicomToNiftiWorker.reader_Execute, DicomToNiftiWorker.sitk_WriteImage,
    bind. simpl.
  destruct (Execute E _) as [e|]; [reflexivity|]. simpl.
  destruct (WriteImage E _) as [e|]; reflexivity.
Qed.

(** [run] in closed form: an exception of the body becomes a log line;
    the completion signal meant to follow is refused, and that [TypeError]
    leaves [run]. *)
Lemma conv_run_eq (fs : FS) :
  DicomToNiftiWorker.run E self fs =
  match DicomToNiftiWorker.run_body E self fs with
  | (tr, fs1, Return _) => (tr, fs1, Return tt)
  | (tr, fs1, Raise e) =>
      (tr ++ [EmitLog ("ERROR: " +:+ str_exn e)], fs1,
       Raise (TypeError
         "DicomToNiftiWorker.finished[Path].emit(): argument 1 has unexpected type 'NoneType'"))
  end.
Proof.
  unfold DicomToNiftiWorker.run, try_except, bind.
  destruct (DicomToNiftiWorker.run_body E self fs) as [[tr fs1] [[]|e]];
    reflexivity.
Qed.

(** A body that raises has emitted no completion signal and written
    nothing that it reports. *)
Lemma conv_raise_quiet (fs fs1 : FS) (tr : list event) (e : exn) :
  DicomToNiftiWorker.run_body E self fs = (tr, fs1, Raise e) ->
  quiet tr = true.
Proof.
  rewrite conv_run_body_eq.
  destruct (PathIO.mkdir true true fs out) as [fs2|e2];
    [|intros [= <- _ _]; reflexivity].
  destruct (GetGDCMSeriesIDs E dir) as [|x xs];
    [intros [= <- _ _]; reflexivity|].
  cbv zeta. destruct (Execute E _) as [e3|]; [intros [= <- _ _]; reflexivity|].
  destruct (WriteImage E _) as [e4|]; [intros [= <- _ _]; reflexivity|].
  discriminate.
Qed.

(** A body that returns has emitted the completion signal once, last,
    with the volume's path. *)
Lemma conv_return_shape (fs fs1 : FS) (tr : list event) :
  DicomToNiftiWorker.run_body E self fs = (tr, fs1, Return tt) ->
  exists tr', tr = tr' ++ [EmitFinishedConv nifti] /\ quiet tr' = true.
Proof.
  rewrite conv_run_body_eq.
  destruct (PathIO.mkdir true true fs out) as [fs2|e2]; [|discriminate].
  destruct (GetGDCMSeriesIDs E dir) as [|x xs]; [discriminate|].
  cbv zeta. destruct (Execute E _) as [e3|]; [discriminate|].
  destruct (WriteImage E _) as [e4|]; [discriminate|].
  intros [= <- _].
  eexists [_; _; _; _; _]. split; reflexivity.
Qed.

End Conversion.

(** ** [max] with a key *)

Lemma max_from_snoc {A} (key : A -> nat) (x : A) (xs : list A) (y : A) :
  Py.max_from key x (xs ++ [y]) =
  if (key (Py.max_from key x xs) <? key y)%nat then y else Py.max_from key x xs.
Proof. unfold Py.max_from. rewrite fold_left_app. reflexivity. Qed.

(** The item [max] returns is the first one, in the order of the sequence,
    whose key is the greatest. *)
Lemma max_from_first_greatest {A} (key : A -> nat) (x : A) (xs : list A) :
  exists i,
    (x :: xs) !! i = Some (Py.max_from key x xs)
    /\ (forall j y, (x :: xs) !! j = Some y ->
                    (key y <= key (Py.max_from key x xs))%nat)
    /\ (forall j y, (j < i)%nat -> (x :: xs) !! j = Some y ->
                    (key y < key (Py.max_from key x xs))%nat).
Proof.
  induction xs as [|y xs IH] using rev_ind.
  - exists 0%nat. split; [reflexivity|]. split.
    + intros [|j] z Hz; simpl in Hz; [|discriminate].
      injection Hz as <-. apply Nat.le_refl.
    + intros j z Hj. lia.
  - destruct IH as (i & Hi & Hle & Hlt).
    rewrite max_from_snoc.
    set (b := Py.max_from key x xs) in *.
    change (x :: xs ++ [y]) with ((x :: xs) ++ [y]).
    destruct (key b <? key y)%nat eqn:Hc.
    + apply Nat.ltb_lt in Hc.
      exists (List.length (x :: xs)). split.
      { rewrite lookup_app_r by (simpl; lia).
        replace (length (x :: xs) - length (x :: xs))%nat with 0%nat by lia.
        reflexivity. }
      split.
      * intros j z Hz. apply lookup_app_Some in Hz as [Hz|[_ Hz]].
        -- specialize (Hle _ _ Hz). lia.
        -- destruct (j - length (x :: xs))%nat; simpl in Hz; [|discriminate].
           injection Hz as <-. lia.
      * intros j z Hj Hz. rewrite lookup_app_l in Hz by exact Hj.
        specialize (Hle _ _ Hz). lia.
    + apply Nat.ltb_ge in Hc.
      exists i. split.
      { rewrite lookup_app_l; [exact Hi|]. apply lookup_lt_Some in Hi. exact Hi. }
      split.
      * intros j z Hz. apply lookup_app_Some in Hz as [Hz|[_ Hz]].
        -- exact (Hle _ _ Hz).
        -- destruct (j - length (x :: xs))%nat; simpl in Hz; [|discriminate].
           injection Hz as <-. exact Hc.
      * intros j z Hj Hz.
        assert (Hil : (i < length (x :: xs))%nat)
          by (apply lookup_lt_Some in Hi; exact Hi).
        rewrite lookup_app_l in Hz by lia. exact (Hlt _ _ Hj Hz).
Qed.

(** The choice depends on the keys only. *)
Lemma max_from_ext {A} (key key' : A -> nat) (x : A) (xs : list A) :
  (forall a, key' a = key a) ->
  Py.max_from key' x xs = Py.max_from key x xs.
Proof.
  intros Hk. unfold Py.max_from. revert x.
  induction xs as [|y xs IH]; intros x; simpl; [reflexivity|].
  rewrite !Hk. apply IH.
Qed.

(** C2. When the directory holds at least one series, the worker reads the
    files of the series with the most files, and among several series with
    that many files the first in the order of enumeration; the choice is a
    function of the enumeration and of the file counts alone. *)
Theorem best_series_first_largest (E : ConvEnv) (self : DicomToNiftiWorker.t) :
  let dir := PurePath.str (DicomToNiftiWorker.dicom_dir self) in
  let ids := GetGDCMSeriesIDs E dir in
  let count := fun sid => List.length (GetGDCMSeriesFileNames E dir sid) in
  ids <> [] ->
  exists i best,
    DicomToNiftiWorker.best_series E self ids = Some best
    /\ ids !! i = Some best
    /\ (forall j sid, ids !! j = Some sid -> (count sid <= count best)%nat)
    /\ (forall j sid, (j < i)%nat -> ids !! j = Some sid ->
                      (count sid < count best)%nat)
    /\ (forall fs fs1,
          PathIO.mkdir true true fs (DicomToNiftiWorker.output_dir self)
            = Return fs1 ->
          trace_of (DicomToNiftiWorker.run E self fs) !! 2%nat
            = Some (CallExecute (GetGDCMSeriesFileNames E dir best)))
    /\ (forall E',
          GetGDCMSeriesIDs E' dir = ids ->
          (forall sid,
             List.length (GetGDCMSeriesFileNames E' dir sid) = count sid) ->
          DicomToNiftiWorker.best_series E' self ids = Some best).
Proof.
  intros dir ids count Hne.
  destruct ids as [|x xs] eqn:Hids; [congruence|]. clear Hne.
  destruct (max_from_first_greatest count x xs) as (i & Hi & Hle & Hlt).
  exists i, (Py.max_from count x xs).
  split; [reflexivity|]. split; [exact Hi|]. split; [exact Hle|].
  split; [exact Hlt|]. split.
  - intros fs fs1 Hmk.
    rewrite conv_run_eq, conv_run_body_eq, Hmk.
    fold dir. subst ids. rewrite Hids. cbv zeta. fold count.
    destruct (Execute E _) as [e|]; [reflexivity|].
    destruct (WriteImage E _) as [e|]; reflexivity.
  - intros E' Hids' Hcount.
    unfold DicomToNiftiWorker.best_series, Py.max_key. fold dir.
    f_equal. apply max_from_ext. exact Hcount.
Qed.

Lemma best_series_first_largest_witness :
  exists i best,
    DicomToNiftiWorker.best_series env_two_series
      (DicomToNiftiWorker.__init__ "/in" "/out") ["1.2.3"; "1.2.4"; "1.2.5"]
      = Some best
    /\ ["1.2.3"; "1.2.4"; "1.2.5"] !! i = Some best.
Proof.
  destruct (best_series_first_largest env_two_series
              (DicomToNiftiWorker.__init__ "/in" "/out")
              ltac:(discriminate))
    as (i & best & H1 & H2 & _).
  exists i, best. split; [exact H1 | exact H2].
Defined.

(** Two series of two files each: the first of them is read. *)
Example best_series_tie :
  DicomToNiftiWorker.best_series env_two_series
    (DicomToNiftiWorker.__init__ "/in" "/out") ["1.2.3"; "1.2.4"; "1.2.5"]
  = Some "1.2.4".
Proof. reflexivity. Qed.

(** C3, as amended. When no series identifier is found in the directory,
    nothing is read, [sitk.WriteImage] is never called, no file appears in
    the file system and no volume is reported; and when the output
    directory could be made, what ends the stage is the [RuntimeError]
    "No DICOM series found", raised right after the enumeration and
    logged. *)
Theorem no_series_no_volume
    (E : ConvEnv) (self : DicomToNiftiWorker.t) (fs : FS) :
  GetGDCMSeriesIDs E (PurePath.str (DicomToNiftiWorker.dicom_dir self)) = [] ->
  let r := DicomToNiftiWorker.run E self fs in
  let out := DicomToNiftiWorker.output_dir self in
  List.filter is_write (trace_of r) = []
  /\ (forall files, ~ In (CallExecute files) (trace_of r))
  /\ quiet (trace_of r) = true
  /\ (forall q, fs_of r !! q = Some File -> fs !! q = Some File)
  /\ (forall fs1,
        PathIO.mkdir true true fs out = Return fs1 ->
        DicomToNiftiWorker.run_body E self fs =
          ([CallMkdir out; EmitLog "Reading DICOM folder..."], fs1,
           Raise (RuntimeError "No DICOM series found"))
        /\ fs_of r = fs1
        /\ List.filter is_log (trace_of r) =
           [EmitLog "Reading DICOM folder...";
            EmitLog "ERROR: No DICOM series found"]).
Proof.
  intros Hids r out. subst r.
  rewrite conv_run_eq, conv_run_body_eq. fold out. rewrite Hids.
  destruct (PathIO.mkdir true true fs out) as [fs1|e] eqn:Hmk.
  - split; [reflexivity|]. split.
    { intros files [H|[H|[H|[]]]]; discriminate H. }
    split; [reflexivity|].
    split; [exact (path_mkdir_files _ _ _ _ _ Hmk)|].
    intros fs2 [= <-]. repeat split.
  - split; [reflexivity|]. split.
    { intros files [H|[H|[]]]; discriminate H. }
    split; [reflexivity|].
    split; [intros q Hq; exact Hq|].
    discriminate.
Qed.

Lemma no_series_no_volume_witness :
  DicomToNiftiWorker.run_body env_no_series
    (DicomToNiftiWorker.__init__ "/in" "/out") ∅
  = ([CallMkdir ["/"; "out"]; EmitLog "Reading DICOM folder..."],
     <[ ["/"; "out"] := Dir ]> ∅,
     Raise (RuntimeError "No DICOM series found")).
Proof.
  destruct (no_series_no_volume env_no_series
              (DicomToNiftiWorker.__init__ "/in" "/out") ∅ eq_refl)
    as (_ & _ & _ & _ & H).
  destruct (H (<[ ["/"; "out"] := Dir ]> ∅)) as [Hb _].
  - vm_compute. reflexivity.
  - exact Hb.
Defined.

(** C3, as stated, fails: with no series in the DICOM folder and a regular
    file where the output folder should be, the stage ends with the
    [FileExistsError] of [mkdir], before any enumeration. *)
Lemma other_failure_before_enumeration :
  ~ no_series_is_the_failure env_no_series
      (DicomToNiftiWorker.__init__ "/in" "/out") (<[ ["/"; "out"] := File ]> ∅).
Proof.
  intros H. destruct (H eq_refl) as (tr & fs1 & Hb).
  vm_compute in Hb. discriminate Hb.
Qed.

(** ** What the widget does with the signals of a worker *)

Lemma fold_log (texts : list string) :
  forall u,
    same_but_log u (fold_left SegmentationUI.log texts u)
    /\ SegmentationUI.log_box (fold_left SegmentationUI.log texts u)
       = SegmentationUI.log_box u ++ texts.
Proof.
  induction texts as [|t texts IH]; intros u; simpl.
  - split; [repeat split | symmetry; apply List.app_nil_r].
  - destruct (IH (SegmentationUI.log u t)) as [Hs Hl]. split.
    + unfold same_but_log in *. simpl in Hs. exact Hs.
    + rewrite Hl. simpl. rewrite <- List.app_assoc. reflexivity.
Qed.

Lemma slot_quiet (tr : list event) :
  quiet tr = true ->
  forall u,
    fold_left App.slot (App.signals tr) u
    = fold_left SegmentationUI.log (log_texts tr) u.
Proof.
  induction tr as [|ev tr IH]; intros Hq u; [reflexivity|].
  simpl in Hq. apply andb_prop in Hq as [Hev Hq].
  destruct ev; simpl in *; try discriminate; auto.
Qed.

Lemma signals_app (a b : list event) :
  App.signals (a ++ b) = App.signals a ++ App.signals b.
Proof. apply List.filter_app. Qed.

(** Whatever exception the body of the conversion worker raises, the
    handler logs it and then raises itself: [run] ends with a [TypeError]
    and without a completion signal. *)
Lemma conv_handler_raises
    (E : ConvEnv) (self : DicomToNiftiWorker.t) (fs fs1 : FS)
    (tr : list event) (e : exn) :
  DicomToNiftiWorker.run_body E self fs = (tr, fs1, Raise e) ->
  exists msg,
    DicomToNiftiWorker.run E self fs =
      (tr ++ [EmitLog ("ERROR: " +:+ str_exn e)], fs1, Raise (TypeError msg))
    /\ quiet (trace_of (DicomToNiftiWorker.run E self fs)) = true.
Proof.
  intros Hbody. pose proof (conv_raise_quiet _ _ _ _ _ _ Hbody) as Hq.
  eexists. rewrite conv_run_eq, Hbody. split; [reflexivity|].
  unfold trace_of. simpl. rewrite quiet_app, Hq. reflexivity.
Qed.

(** C9, the code at the failing input. A conversion whose series cannot be
    read: the worker logs the error, but [finished.emit(None)] is refused
    by the signal declared [pyqtSignal(Path)], so a [TypeError] leaves
    [run] and no completion signal is emitted. Once the widget has handled
    the worker's log lines, no worker is in flight, [on_nifti_done] has not
    run, the log lacks the "conversion failed" line, and the convert button
    is still disabled: a click on it changes nothing, so the conversion
    cannot be retried. *)
Theorem conversion_failure_escapes :
  (exists msg,
     DicomToNiftiWorker.run env_decode_fails
       (DicomToNiftiWorker.__init__ "/in" "/out") ∅
     = ([CallMkdir ["/"; "out"]; EmitLog "Reading DICOM folder...";
         CallExecute ["a1"; "a2"];
         EmitLog "ERROR: ImageSeriesReader: cannot read series"],
        <[ ["/"; "out"] := Dir ]> ∅, Raise (TypeError msg)))
  /\ let s := App.exec App.init session_failed in
     App.threads s = []
     /\ SegmentationUI.btn_convert (App.ui s) = false
     /\ SegmentationUI.nifti_path (App.ui s) = None
     /\ SegmentationUI.log_box (App.ui s)
        = ["DICOM: /in"; "Output: /out";
           "Converting DICOM → NIfTI..." +:+ nl;
           "Reading DICOM folder...";
           "ERROR: ImageSeriesReader: cannot read series"]
     /\ forall E fs, App.step s (App.ClickConvert E fs) = s.
Proof.
  split.
  - eexists. vm_compute. reflexivity.
  - vm_compute. repeat split.
Qed.

(* ===================================================================== *)
(** * The application: what every reachable state satisfies              *)
(* ===================================================================== *)

(** ** Threads in flight *)

Lemma count_delete {A} (P : A -> bool) (l : list A) :
  forall k x,
    l !! k = Some x ->
    (List.length (List.filter P (delete k l)) + (if P x then 1 else 0)
     = List.length (List.filter P l))%nat.
Proof.
  induction l as [|a l IH]; intros [|k] x Hx; simpl in *; try discriminate.
  - injection Hx as <-. destruct (P a); simpl; lia.
  - specialize (IH _ _ Hx). destruct (P a); simpl; lia.
Qed.

Lemma count_insert {A} (P : A -> bool) (l : list A) :
  forall k x y,
    l !! k = Some x -> P y = P x ->
    List.length (List.filter P (<[k := y]> l)) = List.length (List.filter P l).
Proof.
  induction l as [|a l IH]; intros [|k] x y Hx Hy; simpl in *; try discriminate.
  - injection Hx as <-. rewrite Hy. destruct (P a); reflexivity.
  - specialize (IH _ _ _ Hx Hy). destruct (P a); simpl; lia.
Qed.

Lemma count_snoc {A} (P : A -> bool) (l : list A) (x : A) :
  List.length (List.filter P (l ++ [x]))
  = (List.length (List.filter P l) + (if P x then 1 else 0))%nat.
Proof.
  rewrite List.filter_app, List.length_app. simpl.
  destruct (P x); reflexivity.
Qed.

(** ** The signals of a run *)

Lemma wf_pending_signals (fin : event -> bool) (tr : list event) (f : event) :
  quiet tr = true -> App.is_signal f = true -> fin f = true ->
  wf_pending fin (App.signals (tr ++ [f])) = true.
Proof.
  intros Hq Hs Hf. rewrite signals_app. simpl. rewrite Hs.
  induction tr as [|ev tr IH]; simpl in *; [exact Hf|].
  apply andb_prop in Hq as [Hev Hq]. specialize (IH Hq).
  destruct (App.is_signal ev) eqn:Hsig; [|exact IH].
  simpl.
  assert (Hlog : is_log ev = true) by (destruct ev; simpl in *; congruence).
  rewrite Hlog, IH.
  destruct (App.signals tr ++ [f]) eqn:Hl; [|reflexivity].
  destruct (App.signals tr); discriminate Hl.
Qed.

Lemma conv_signals_wf (E : ConvEnv) (w : DicomToNiftiWorker.t) (fs : FS) :
  wf_pending (fun sg => is_finished_conv sg || is_log sg)
    (App.signals (trace_of (DicomToNiftiWorker.run E w fs))) = true.
Proof.
  rewrite conv_run_eq.
  destruct (DicomToNiftiWorker.run_body E w fs) as [[tr fs1] [[]|e]] eqn:Hb.
  - destruct (conv_return_shape _ _ _ _ _ Hb) as (tr' & -> & Hq).
    apply wf_pending_signals; [exact Hq | reflexivity | reflexivity].
  - pose proof (conv_raise_quiet _ _ _ _ _ _ Hb) as Hq.
    unfold trace_of. simpl fst.
    apply wf_pending_signals; [exact Hq | reflexivity | reflexivity].
Qed.

Lemma seg_signals_wf (E : SegEnv) (w : SegmentationWorker.t) (fs : FS) :
  wf_pending is_finished_seg
    (App.signals (trace_of (SegmentationWorker.run E w fs))) = true.
Proof.
  destruct (seg_worker_shape E w fs) as (_ & tr & Htr & Hq).
  rewrite Htr. apply wf_pending_signals; [exact Hq | reflexivity | reflexivity].
Qed.

Lemma wf_pending_nonempty (fin : event -> bool) (p : list event) :
  wf_pending fin p = true -> p <> [].
Proof. destruct p; [discriminate | discriminate]. Qed.

(** ** The invariant *)

Lemma inv_init : Inv App.init.
Proof.
  constructor.
  - constructor.
  - unfold App.converting. simpl. lia.
  - unfold App.converting. simpl. lia.
  - reflexivity.
  - unfold App.segmenting. simpl. lia.
  - intros [H|H]; [unfold App.converting in H; simpl in H; lia|].
    simpl in H. congruence.
  - unfold App.segmenting. simpl. lia.
  - reflexivity.
  - vm_compute. lia.
Qed.

(** The invariant speaks of the widget and of the threads only. *)
Lemma inv_same (s s' : App.t) :
  Inv s -> App.ui s' = App.ui s -> App.threads s' = App.threads s -> Inv s'.
Proof.
  intros [H1 H2 H3 H4 H5 H6 H7 H8 H9] Hu Ht.
  constructor; unfold App.converting, App.segmenting in *;
    rewrite ?Hu, ?Ht; assumption.
Qed.

(** A slot that touches neither the buttons nor the volume nor an already
    chosen output folder nor the task box's items keeps the invariant. *)
Lemma inv_with_ui (s : App.t) (u' : SegmentationUI.t) :
  Inv s ->
  SegmentationUI.btn_convert u' = SegmentationUI.btn_convert (App.ui s) ->
  SegmentationUI.run_btn u' = SegmentationUI.run_btn (App.ui s) ->
  SegmentationUI.nifti_path u' = SegmentationUI.nifti_path (App.ui s) ->
  ((exists o, SegmentationUI.output_dir (App.ui s) = Some o) ->
   exists o, SegmentationUI.output_dir u' = Some o) ->
  items (SegmentationUI.ts_task_box u') = SegmentationUI.ts_task_items ->
  (currentIndex (SegmentationUI.ts_task_box u')
   < List.length SegmentationUI.ts_task_items)%nat ->
  Inv (App.with_ui s u').
Proof.
  intros [H1 H2 H3 H4 H5 H6 H7 H8 H9] Hb Hr Hn Ho Hi Hx.
  constructor; unfold App.converting, App.segmenting in *; simpl;
    rewrite ?Hb, ?Hr, ?Hn; try assumption.
  intros H. apply Ho, H6. exact H.
Qed.

Lemma choose_items (i : nat) (cb : QComboBox) :
  items (App.choose_box i cb) = items cb
  /\ ((currentIndex cb < List.length (items cb))%nat ->
      (currentIndex (App.choose_box i cb) < List.length (items cb))%nat).
Proof.
  unfold App.choose_box.
  destruct (isEnabled cb && (i <? List.length (items cb))%nat) eqn:Hc;
    simpl; [|tauto].
  split; [reflexivity|]. intros _.
  apply andb_prop in Hc as [_ Hc]. apply Nat.ltb_lt in Hc. exact Hc.
Qed.

Lemma inv_step_select_dicom (s : App.t) (chosen : string) :
  Inv s -> Inv (App.step s (App.ClickSelectDicom chosen)).
Proof.
  intros HI. simpl. unfold SegmentationUI.select_dicom.
  destruct (String.eqb chosen "");
    apply inv_with_ui; simpl; auto; apply HI.
Qed.

Lemma inv_step_select_output (s : App.t) (chosen : string) :
  Inv s -> Inv (App.step s (App.ClickSelectOutput chosen)).
Proof.
  intros HI. simpl. unfold SegmentationUI.select_output.
  destruct (String.eqb chosen "");
    apply inv_with_ui; simpl; eauto; apply HI.
Qed.

Lemma inv_step_choose (s : App.t) (i : nat) :
  Inv s ->
  Inv (App.step s (App.ChooseMethod i))
  /\ Inv (App.step s (App.ChooseModel i))
  /\ Inv (App.step s (App.ChooseDevice i))
  /\ Inv (App.step s (App.ChooseTask i)).
Proof.
  intros HI.
  pose proof (inv_task_items _ HI) as Hit.
  pose proof (inv_task_index _ HI) as Hix.
  split; [|split; [|split]]; simpl.
  - unfold App.choose_method.
    match goal with |- context [if ?c then _ else _] => destruct c end;
      apply inv_with_ui; simpl; auto.
  - apply inv_with_ui; simpl; auto.
  - apply inv_with_ui; simpl; auto.
  - destruct (choose_items i (SegmentationUI.ts_task_box (App.ui s)))
      as [Hi Hx].
    apply inv_with_ui; simpl; auto.
    + rewrite Hi. exact Hit.
    + rewrite Hit in Hx. exact (Hx Hix).
Qed.

Lemma start_thread_wf (th : App.thread) :
  wf_thread th = true -> App.start_thread th = [th].
Proof.
  unfold App.start_thread. destruct th as [[|sg p]|[|sg p]]; simpl;
    intros H; try discriminate; reflexivity.
Qed.

Lemma inv_step_convert (s : App.t) (E : ConvEnv) (fs : FS) :
  Inv s -> Inv (App.step s (App.ClickConvert E fs)).
Proof.
  intros HI. simpl.
  destruct (SegmentationUI.btn_convert (App.ui s)) eqn:Hb; [|exact HI].
  assert (Hc : App.converting s = 0%nat).
  { destruct (App.converting s) eqn:Hn; [reflexivity|].
    pose proof (inv_convert _ HI) as H. rewrite Hn, Hb in H.
    discriminate H. lia. }
  unfold SegmentationUI.convert_dicom.
  destruct (SegmentationUI.dicom_dir (App.ui s)) as [d|] eqn:Hd;
    [destruct (SegmentationUI.output_dir (App.ui s)) as [o|] eqn:Ho|];
    [destruct (String.eqb d "" || String.eqb o "") | |];
    try (apply (inv_same s); [exact HI | reflexivity | simpl; apply List.app_nil_r]).
  set (w := DicomToNiftiWorker.__init__ d o).
  simpl List.flat_map.
  pose proof (conv_signals_wf E w fs) as Hwf.
  rewrite (start_thread_wf (App.ConvThread _) Hwf). rewrite List.app_nil_r.
  destruct HI as [H1 H2 H3 H4 H5 H6 H7 H8 H9].
  constructor; unfold App.converting, App.segmenting in *; simpl;
    rewrite ?count_snoc; simpl; rewrite ?Nat.add_0_r; try assumption.
  - apply Forall_app. split; [exact H1|]. constructor; [exact Hwf|constructor].
  - intros _. reflexivity.
  - lia.
  - intros _. exists o. exact Ho.
Qed.

Lemma inv_step_run (s : App.t) (E : SegEnv) (fs : FS) :
  Inv s -> Inv (App.step s (App.ClickRun E fs)).
Proof.
  intros HI. simpl.
  destruct (SegmentationUI.run_btn (App.ui s)) eqn:Hb; [|exact HI].
  pose proof (inv_run _ HI) as Hc. rewrite Hb in Hc.
  symmetry in Hc. apply Nat.eqb_eq in Hc.
  unfold SegmentationUI.run_segmentation.
  destruct (SegmentationUI.nifti_path (App.ui s)) as [nifti|] eqn:Hn;
    [|apply (inv_same s); [exact HI | reflexivity | simpl; apply List.app_nil_r]].
  destruct (Py.startswith _ "---");
    [apply (inv_same s); [exact HI | reflexivity | simpl; apply List.app_nil_r]|].
  destruct (inv_output _ HI) as [o Ho]; [right; congruence|].
  rewrite Ho. cbn [SegmentationWorker.__init__].
  match goal with |- context [StartSeg ?w0] => set (w := w0) end.
  simpl List.flat_map.
  pose proof (seg_signals_wf E w fs) as Hwf.
  rewrite (start_thread_wf (App.SegThread _) Hwf). rewrite List.app_nil_r.
  destruct HI as [H1 H2 H3 H4 H5 H6 H7 H8 H9].
  destruct (Py.endswith
              (currentText (SegmentationUI.ts_task_box (App.ui s))) "_mr").
  all: constructor; unfold App.converting, App.segmenting in *;
    cbn [App.ui App.threads]; rewrite ?count_snoc; cbn [App.is_conv App.is_seg];
    rewrite ?Nat.add_0_r; simpl; try assumption.
  all: try (apply Forall_app; split; [exact H1|];
            constructor; [exact Hwf|constructor]).
  all: try (rewrite Hc; reflexivity).
  all: try lia.
  all: try (intros _; exists o; exact Ho).
  all: try (intros _; rewrite Hn; discriminate).
Qed.

Lemma inv_step_deliver (s : App.t) (k : nat) :
  Inv s -> Inv (App.step s (App.Deliver k)).
Proof.
  intros HI. simpl.
  destruct (App.threads s !! k) as [th|] eqn:Hk; [|exact HI].
  pose proof (Forall_lookup_1 _ _ _ _ (inv_threads _ HI) Hk) as Hwf.
  pose proof (count_delete App.is_conv _ _ _ Hk) as Hdc.
  pose proof (count_delete App.is_seg _ _ _ Hk) as Hds.
  destruct HI as [H1 H2 H3 H4 H5 H6 H7 H8 H9].
  unfold App.converting, App.segmenting in *.
  destruct th as [p|p]; simpl in Hwf, Hdc, Hds |- *;
    (destruct p as [|sg [|sg2 rest]]; [discriminate Hwf| |]).
  - (* the last signal of a conversion worker *)
    assert (Hc0 : List.length (List.filter App.is_conv (delete k (App.threads s)))
                  = 0%nat) by lia.
    rewrite Nat.add_0_r in Hds.
    destruct sg; try discriminate Hwf.
    + (* a log line: the worker failed *)
      constructor; unfold App.converting, App.segmenting;
        cbn [App.ui App.threads App.slot]; rewrite ?Hc0, ?Hds; simpl;
        try assumption; try lia.
      * apply Forall_delete. exact H1.
      * intros [H|H]; [lia|]. apply H6. right. exact H.
    + (* the completion signal *)
      constructor; unfold App.converting, App.segmenting;
        cbn [App.ui App.threads App.slot]; rewrite ?Hc0, ?Hds; simpl;
        try assumption; try lia.
      * apply Forall_delete. exact H1.
      * intros _. apply H6. left. lia.
      * intros _. discriminate.
  - (* a log line of a conversion worker *)
    apply andb_prop in Hwf as [Hlog Hwf]. destruct sg; try discriminate Hlog.
    pose proof (count_insert App.is_conv _ _ _ (App.ConvThread (sg2 :: rest))
                  Hk eq_refl) as Hic.
    pose proof (count_insert App.is_seg _ _ _ (App.ConvThread (sg2 :: rest))
                  Hk eq_refl) as His.
    constructor; unfold App.converting, App.segmenting;
      cbn [App.ui App.threads App.slot]; rewrite ?Hic, ?His; simpl;
      try assumption.
    apply Forall_insert; [exact H1 | exact Hwf].
  - (* the completion signal of a segmentation worker *)
    destruct sg; try discriminate Hwf.
    assert (Hs0 : List.length (List.filter App.is_seg (delete k (App.threads s)))
                  = 0%nat) by lia.
    rewrite Nat.add_0_r in Hdc.
    constructor; unfold App.converting, App.segmenting;
      cbn [App.ui App.threads App.slot]; rewrite ?Hdc, ?Hs0; simpl;
      try assumption; try lia; try reflexivity;
      try (apply Forall_delete; exact H1).
  - (* a log line of a segmentation worker *)
    apply andb_prop in Hwf as [Hlog Hwf]. destruct sg; try discriminate Hlog.
    pose proof (count_insert App.is_conv _ _ _ (App.SegThread (sg2 :: rest))
                  Hk eq_refl) as Hic.
    pose proof (count_insert App.is_seg _ _ _ (App.SegThread (sg2 :: rest))
                  Hk eq_refl) as His.
    constructor; unfold App.converting, App.segmenting;
      cbn [App.ui App.threads App.slot]; rewrite ?Hic, ?His; simpl;
      try assumption.
    apply Forall_insert; [exact H1 | exact Hwf].
Qed.

Lemma inv_step (s : App.t) (i : App.input) : Inv s -> Inv (App.step s i).
Proof.
  intros HI. destruct i.
  - apply inv_step_select_dicom, HI.
  - apply inv_step_select_output, HI.
  - apply inv_step_convert, HI.
  - apply inv_step_run, HI.
  - apply (inv_step_choose s i HI).
  - apply (inv_step_choose s i HI).
  - apply (inv_step_choose s i HI).
  - apply (inv_step_choose s i HI).
  - apply inv_step_deliver, HI.
Qed.

Lemma inv_exec (inputs : list App.input) :
  forall s, Inv s -> Inv (App.exec s inputs).
Proof.
  induction inputs as [|i inputs IH]; intros s HI; [exact HI|].
  simpl. apply IH, inv_step, HI.
Qed.

Lemma inv_reachable (s : App.t) : App.reachable s -> Inv s.
Proof. intros [inputs ->]. apply inv_exec, inv_init. Qed.

(* ===================================================================== *)
(** * The coordinating widget (C1, C5, C6, C8)                            *)
(* ===================================================================== *)

(** C1. Without a volume, [run_segmentation] only shows the
    "Missing NIfTI" warning: the widget is unchanged, no worker is created
    or started, so nothing is launched. And in every state the application
    can reach, a segmentation worker is in flight only if the volume path
    is set. *)
Theorem segmentation_requires_volume :
  (forall u,
     SegmentationUI.nifti_path u = None ->
     SegmentationUI.run_segmentation u = (u, [SegmentationUI.missing_nifti]))
  /\ (forall s E fs,
        SegmentationUI.nifti_path (App.ui s) = None ->
        let s' := App.step s (App.ClickRun E fs) in
        App.ui s' = App.ui s /\ App.threads s' = App.threads s
        /\ (forall w, ~ In (StartSeg w) (List.skipn (List.length (App.effects s))
                                                    (App.effects s'))))
  /\ (forall s,
        App.reachable s ->
        (0 < App.segmenting s)%nat ->
        SegmentationUI.nifti_path (App.ui s) <> None).
Proof.
  assert (H1 : forall u,
     SegmentationUI.nifti_path u = None ->
     SegmentationUI.run_segmentation u = (u, [SegmentationUI.missing_nifti])).
  { intros u Hn. unfold SegmentationUI.run_segmentation. rewrite Hn.
    reflexivity. }
  split; [exact H1|]. split.
  - intros s E fs Hn. simpl.
    destruct (SegmentationUI.run_btn (App.ui s)).
    + rewrite (H1 _ Hn). simpl. rewrite List.app_nil_r.
      split; [reflexivity|]. split; [reflexivity|].
      intros w. rewrite List.skipn_app, List.skipn_all, Nat.sub_diag. simpl.
      intros [H|[]]. discriminate H.
    + split; [reflexivity|]. split; [reflexivity|].
      intros w. rewrite List.skipn_all. intros [].
  - intros s Hr. exact (inv_volume _ (inv_reachable _ Hr)).
Qed.

Lemma segmentation_requires_volume_witness :
  SegmentationUI.run_segmentation SegmentationUI.__init__
  = (SegmentationUI.__init__, [SegmentationUI.missing_nifti]).
Proof.
  exact (proj1 segmentation_requires_volume SegmentationUI.__init__ eq_refl).
Defined.

(** C5, the code at the failing input. After a successful conversion, with
    the method box at "Skellytour" and the task box therefore disabled,
    still showing the header it was created with, "Run Segmentation" is
    refused with the "Invalid Task" warning and no worker is started; the
    user cannot change the disabled task box either. *)
Theorem skellytour_blocked_by_task_box :
  let s := App.exec App.init session_converted in
  let u := App.ui s in
  currentText (SegmentationUI.method_box u) = "Skellytour"
  /\ SegmentationUI.nifti_path u = Some ["/"; "out"; "ct.nii.gz"]
  /\ SegmentationUI.run_btn u = true
  /\ isEnabled (SegmentationUI.ts_task_box u) = false
  /\ currentText (SegmentationUI.ts_task_box u) = "--- CT (default) ---"
  /\ SegmentationUI.run_segmentation u = (u, [SegmentationUI.invalid_task])
  /\ (forall E fs, App.threads (App.step s (App.ClickRun E fs)) = [])
  /\ (forall i, App.ui (App.step s (App.ChooseTask i)) = u).
Proof.
  vm_compute. repeat split.
Qed.

(** No item of the task box both ends with "_mr" and starts like a
    header. *)
Lemma mr_item_not_header (task : string) :
  In task SegmentationUI.ts_task_items ->
  Py.endswith task "_mr" = true ->
  Py.startswith task "---" = false.
Proof.
  assert (H : forallb
            (fun t => negb (Py.endswith t "_mr") || negb (Py.startswith t "---"))
            SegmentationUI.ts_task_items = true) by (vm_compute; reflexivity).
  rewrite forallb_forall in H. intros Hin Hmr. apply H in Hin.
  rewrite Hmr in Hin. simpl in Hin. apply negb_true_iff in Hin. exact Hin.
Qed.

Lemma header_startswith (group : string) :
  Py.startswith (group_header group) "---" = true.
Proof. reflexivity. Qed.

Lemma current_task_item (s : App.t) :
  Inv s ->
  In (currentText (SegmentationUI.ts_task_box (App.ui s)))
     SegmentationUI.ts_task_items.
Proof.
  intros HI. unfold currentText. rewrite (inv_task_items _ HI).
  apply nth_In. exact (inv_task_index _ HI).
Qed.

(** An item of the task box that is no header is a task of the
    catalogue. *)
Lemma task_item_in_catalog (item : string) :
  In item SegmentationUI.ts_task_items ->
  Py.startswith item "---" = false ->
  In item catalog_tasks.
Proof.
  assert (H : forallb
            (fun t => Py.startswith t "---"
                      || existsb (String.eqb t) catalog_tasks)
            SegmentationUI.ts_task_items = true) by (vm_compute; reflexivity).
  rewrite forallb_forall in H. intros Hin Hs. specialize (H _ Hin).
  rewrite Hs in H. change (false || ?b) with b in H.
  apply existsb_exists in H as (t & Ht & Heq).
  apply String.eqb_eq in Heq. subst t. exact Ht.
Qed.

(** What a started segmentation worker launches: the Skellytour command
    whatever the file system; the TotalSegmentator command once the task's
    directory could be made sure of. *)
Lemma seg_run_launches (E : SegEnv) (self : SegmentationWorker.t) (fs : FS) :
  let t := SegmentationWorker.ts_task self in
  let d := SegmentationWorker.output_dir self in
  let v := SegmentationWorker.nifti_path self in
  let out := d ++ ["segmentations_" +:+ t] in
  (SegmentationWorker.method self = "Skellytour" ->
   exists rest,
     trace_of (SegmentationWorker.run E self fs) =
       EmitLog "Running Skellytour..."
         :: CallPopen ["skellytour"; "-i"; PurePath.str v; "-o"; PurePath.str d;
                       "-m"; SegmentationWorker.model self;
                       "-d"; SegmentationWorker.device self; "--overwrite"]
         :: rest)
  /\ (SegmentationWorker.method self <> "Skellytour" ->
      In t catalog_tasks ->
      Os.is_dir fs d = true ->
      Os.is_file fs out = false ->
      exists rest,
        trace_of (SegmentationWorker.run E self fs) =
          EmitLog ("Running TotalSegmentator (task: " +:+ t +:+ ")")
            :: CallMkdir out
            :: CallPopen ["TotalSegmentator"; "-i"; PurePath.str v;
                          "-o"; PurePath.str out; "-ta"; t]
            :: rest).
Proof.
  intros t d v out. split.
  - intros Hm. rewrite seg_run_eq. unfold seg_engine. rewrite Hm.
    change ("Skellytour" =? "Skellytour")%string with true. cbv iota.
    rewrite run_skellytour_eq, _run_eq.
    fold (SegmentationWorker.skellytour_cmd self).
    destruct (Popen E (SegmentationWorker.skellytour_cmd self) fs)
      as [e|stdout e after|stdout rc after];
      [| |destruct (rc =? 0)%Z]; unfold trace_of; cbn [fst app];
      eexists; reflexivity.
  - intros Hm Hin Hd Hf.
    pose proof (catalog_out_dir self Hin) as Hout. fold t d out in Hout.
    pose proof (mkdir_flat_child fs d t Hd Hf) as Hmk. fold out in Hmk.
    cbv zeta in Hmk.
    assert (Hcmd : SegmentationWorker.totalsegmentator_cmd self
                   = ["TotalSegmentator"; "-i"; PurePath.str v;
                      "-o"; PurePath.str out; "-ta"; t]).
    { unfold SegmentationWorker.totalsegmentator_cmd. rewrite Hout.
      reflexivity. }
    apply String.eqb_neq in Hm.
    rewrite seg_run_eq. unfold seg_engine. rewrite Hm.
    rewrite run_totalsegmentator_eq. cbv zeta.
    rewrite Hout, Hmk, Hcmd, _run_eq. fold t.
    destruct (Popen E _ _) as [e|stdout e after|stdout rc after];
      [| |destruct (rc =? 0)%Z]; unfold trace_of; cbn [fst app];
      eexists; reflexivity.
Qed.

(** C6. In a reachable state in which the volume path is set: when the
    task box shows the header of a group, [run_segmentation] only shows the
    "Invalid Task" warning: the widget, its log box included, is as before
    and no worker is started. When it shows a task that ends with "_mr",
    the advisory line and then the start line are appended to the log box,
    the segmentation worker is created with that task and started all the
    same, and its run launches the command of the chosen method: the
    Skellytour command, or, the output folder being a directory in which
    [segmentations_<task>] is no regular file, the TotalSegmentator command
    for that task. *)
Theorem task_validation (s : App.t) (nifti : Path) :
  App.reachable s ->
  SegmentationUI.nifti_path (App.ui s) = Some nifti ->
  let u := App.ui s in
  let task := currentText (SegmentationUI.ts_task_box u) in
  (forall group,
     task = group_header group ->
     SegmentationUI.run_segmentation u
     = (u, [Warning "Invalid Task" "Select a valid TotalSegmentator task"])
     /\ forall E fs,
          App.ui (App.step s (App.ClickRun E fs)) = u
          /\ App.threads (App.step s (App.ClickRun E fs)) = App.threads s)
  /\ (Py.endswith task "_mr" = true ->
      exists o w,
        SegmentationUI.output_dir u = Some o
        /\ w = {| SegmentationWorker.nifti_path := nifti;
                  SegmentationWorker.output_dir := PurePath.of_str o;
                  SegmentationWorker.method :=
                    currentText (SegmentationUI.method_box u);
                  SegmentationWorker.model :=
                    currentText (SegmentationUI.model_box u);
                  SegmentationWorker.device :=
                    currentText (SegmentationUI.device_box u);
                  SegmentationWorker.ts_task := task |}
        /\ SegmentationUI.run_segmentation u =
             (SegmentationUI.set_worker (inr w)
                (SegmentationUI.set_run_btn false
                   (SegmentationUI.log
                      (SegmentationUI.log u SegmentationUI.mr_warning)
                      ("Starting segmentation..." +:+ nl))),
              [StartSeg w])
        /\ SegmentationUI.log_box (fst (SegmentationUI.run_segmentation u))
           = SegmentationUI.log_box u
             ++ ["⚠ WARNING: MR task selected. Ensure MR input." +:+ nl;
                 "Starting segmentation..." +:+ nl]
        /\ (SegmentationUI.run_btn u = true ->
            forall E fs,
              App.threads (App.step s (App.ClickRun E fs)) =
              App.threads s ++
              [App.SegThread
                 (App.signals (trace_of (SegmentationWorker.run E w fs)))]
              /\ SegmentationUI.log_box
                   (App.ui (App.step s (App.ClickRun E fs)))
                 = SegmentationUI.log_box u
                   ++ ["⚠ WARNING: MR task selected. Ensure MR input." +:+ nl;
                       "Starting segmentation..." +:+ nl])
        /\ (forall E fs,
              let d := PurePath.of_str o in
              let out := d ++ ["segmentations_" +:+ task] in
              (currentText (SegmentationUI.method_box u) = "Skellytour" ->
               exists rest,
                 trace_of (SegmentationWorker.run E w fs) =
                   EmitLog "Running Skellytour..."
                     :: CallPopen
                          ["skellytour"; "-i"; PurePath.str nifti;
                           "-o"; PurePath.str d;
                           "-m"; currentText (SegmentationUI.model_box u);
                           "-d"; currentText (SegmentationUI.device_box u);
                           "--overwrite"]
                     :: rest)
              /\ (currentText (SegmentationUI.method_box u) <> "Skellytour" ->
                  Os.is_dir fs d = true ->
                  Os.is_file fs out = false ->
                  exists rest,
                    trace_of (SegmentationWorker.run E w fs) =
                      EmitLog ("Running TotalSegmentator (task: "
                               +:+ task +:+ ")")
                        :: CallMkdir out
                        :: CallPopen
                             ["TotalSegmentator"; "-i"; PurePath.str nifti;
                              "-o"; PurePath.str out; "-ta"; task]
                        :: rest))).
Proof.
  intros Hr Hn u task. pose proof (inv_reachable _ Hr) as HI. split.
  - intros group Hg.
    assert (Hrun : SegmentationUI.run_segmentation u
                   = (u, [SegmentationUI.invalid_task])).
    { unfold SegmentationUI.run_segmentation. subst u. rewrite Hn.
      fold task. rewrite Hg, header_startswith. reflexivity. }
    split; [exact Hrun|]. intros E fs. cbn [App.step]. fold u.
    destruct (SegmentationUI.run_btn u); [|split; reflexivity].
    rewrite Hrun. split; [reflexivity|]. apply List.app_nil_r.
  - intros Hmr.
    destruct (inv_output _ HI) as [o Ho]; [right; congruence|].
    pose proof (mr_item_not_header _ (current_task_item _ HI) Hmr) as Hnh.
    pose proof (task_item_in_catalog _ (current_task_item _ HI) Hnh) as Hcat.
    fold u task in Ho, Hnh, Hcat.
    set (w := {| SegmentationWorker.nifti_path := nifti;
                 SegmentationWorker.output_dir := PurePath.of_str o;
                 SegmentationWorker.method :=
                   currentText (SegmentationUI.method_box u);
                 SegmentationWorker.model :=
                   currentText (SegmentationUI.model_box u);
                 SegmentationWorker.device :=
                   currentText (SegmentationUI.device_box u);
                 SegmentationWorker.ts_task := task |}).
    assert (Hrun : SegmentationUI.run_segmentation u =
             (SegmentationUI.set_worker (inr w)
                (SegmentationUI.set_run_btn false
                   (SegmentationUI.log
                      (SegmentationUI.log u SegmentationUI.mr_warning)
                      ("Starting segmentation..." +:+ nl))),
              [StartSeg w])).
    { unfold SegmentationUI.run_segmentation. subst u. rewrite Hn.
      fold task. rewrite Hnh, Hmr, Ho. reflexivity. }
    assert (Hlog : SegmentationUI.log_box
                     (fst (SegmentationUI.run_segmentation u))
                   = SegmentationUI.log_box u
                     ++ ["⚠ WARNING: MR task selected. Ensure MR input." +:+ nl;
                         "Starting segmentation..." +:+ nl]).
    { rewrite Hrun. cbn [fst SegmentationUI.set_worker
                         SegmentationUI.set_run_btn SegmentationUI.log
                         SegmentationUI.log_box].
      rewrite <- List.app_assoc. reflexivity. }
    exists o, w. split; [exact Ho|]. split; [reflexivity|].
    split; [exact Hrun|]. split; [exact Hlog|]. split.
    + intros Hb E fs. cbn [App.step]. fold u.
      rewrite Hb. rewrite Hrun in Hlog |- *. cbn [fst] in Hlog.
      cbn [App.ui App.threads]. split; [|exact Hlog].
      simpl List.flat_map. rewrite List.app_nil_r.
      rewrite start_thread_wf; [reflexivity|]. apply seg_signals_wf.
    + intros E fs d out.
      destruct (seg_run_launches E w fs) as [Hsk Hts]. split.
      * intros Hm. exact (Hsk Hm).
      * intros Hm Hd Hf. exact (Hts Hm Hcat Hd Hf).
Qed.

Lemma task_validation_witness :
  let s := App.exec App.init session_mr in
  currentText (SegmentationUI.ts_task_box (App.ui s)) = "total_mr"
  /\ snd (SegmentationUI.run_segmentation (App.ui s))
     = [StartSeg
          {| SegmentationWorker.nifti_path := ["/"; "out"; "ct.nii.gz"];
             SegmentationWorker.output_dir := ["/"; "out"];
             SegmentationWorker.method := "TotalSegmentator";
             SegmentationWorker.model := "low";
             SegmentationWorker.device := "gpu";
             SegmentationWorker.ts_task := "total_mr" |}]
  /\ SegmentationUI.log_box (fst (SegmentationUI.run_segmentation (App.ui s)))
     = SegmentationUI.log_box (App.ui s)
       ++ ["⚠ WARNING: MR task selected. Ensure MR input." +:+ nl;
           "Starting segmentation..." +:+ nl].
Proof.
  intros s. split; [vm_compute; reflexivity|].
  destruct (task_validation s ["/"; "out"; "ct.nii.gz"]
              (ex_intro _ session_mr eq_refl) ltac:(vm_compute; reflexivity))
    as [_ H].
  destruct (H ltac:(vm_compute; reflexivity))
    as (o & w & Ho & Hw & Hrun & Hlog & _).
  split; [|exact Hlog].
  rewrite Hrun. simpl. rewrite Hw.
  assert (o = "/out") as -> by (vm_compute in Ho; congruence).
  vm_compute. reflexivity.
Defined.

(** C8, as amended. In every reachable state at most one conversion worker
    and at most one segmentation worker are in flight, and a click on the
    start button of a stage whose worker is in flight changes nothing. *)
Theorem one_worker_per_stage (s : App.t) :
  App.reachable s ->
  (App.converting s <= 1)%nat
  /\ (App.segmenting s <= 1)%nat
  /\ (App.converting s = 1%nat ->
      forall E fs, App.step s (App.ClickConvert E fs) = s)
  /\ (App.segmenting s = 1%nat ->
      forall E fs, App.step s (App.ClickRun E fs) = s).
Proof.
  intros Hr. pose proof (inv_reachable _ Hr) as HI.
  split; [exact (inv_one_conv _ HI)|]. split; [exact (inv_one_seg _ HI)|].
  split; intros H1 E fs; simpl.
  - rewrite (inv_convert _ HI) by lia. reflexivity.
  - rewrite (inv_run _ HI), H1. reflexivity.
Qed.

Lemma one_worker_per_stage_witness :
  let s := App.exec App.init session_both in
  App.converting s = 1%nat /\ App.segmenting s = 1%nat
  /\ App.step s (App.ClickConvert env_two_series fs_out) = s
  /\ App.step s (App.ClickRun (env_exit 0) fs_out) = s.
Proof.
  intros s.
  destruct (one_worker_per_stage s (ex_intro _ session_both eq_refl))
    as (_ & _ & Hc & Hs).
  assert (H1 : App.converting s = 1%nat) by (vm_compute; reflexivity).
  assert (H2 : App.segmenting s = 1%nat) by (vm_compute; reflexivity).
  split; [exact H1|]. split; [exact H2|].
  split; [exact (Hc H1 _ _) | exact (Hs H2 _ _)].
Defined.

(** C8, as stated, fails: a conversion is started again after a first one
    succeeded, and while its worker is in flight the segmentation is
    started too; two workers are then in flight. *)
Lemma two_workers_in_flight : ~ single_worker.
Proof.
  intros H.
  specialize (H (App.exec App.init session_both)
                (ex_intro _ session_both eq_refl)).
  vm_compute in H. lia.
Qed.

(* ===================================================================== *)
(** * Further properties of the segmentation worker                       *)
(* ===================================================================== *)

(** X1. A Skellytour worker makes no directory and writes no file of its
    own: in the file system as it found it, it launches
    [skellytour -i v -o d -m model -d device --overwrite], the overwrite
    flag always last and the task nowhere. What follows is decided by the
    process alone: an exception of the launch is logged; the lines read
    are logged in order; if reading them raises, that exception is logged
    and the process is not waited for; after the wait a non-zero exit adds
    the "Segmentation failed" line; the completion signal ends every
    case and the file system is what the process left. *)
Theorem skellytour_dispatch
    (E : SegEnv) (self : SegmentationWorker.t) (fs : FS) :
  SegmentationWorker.method self = "Skellytour" ->
  let cmd := [ "skellytour";
               "-i"; PurePath.str (SegmentationWorker.nifti_path self);
               "-o"; PurePath.str (SegmentationWorker.output_dir self);
               "-m"; SegmentationWorker.model self;
               "-d"; SegmentationWorker.device self;
               "--overwrite" ] in
  SegmentationWorker.run E self fs =
    (EmitLog "Running Skellytour..." :: CallPopen cmd ::
       match Popen E cmd fs with
       | LaunchFails e => [EmitLog ("ERROR: " +:+ str_exn e); EmitFinishedSeg]
       | ReadFails stdout e _ =>
           List.map (fun l => EmitLog (Py.rstrip l)) stdout ++
           [EmitLog ("ERROR: " +:+ str_exn e); EmitFinishedSeg]
       | Runs stdout rc _ =>
           List.map (fun l => EmitLog (Py.rstrip l)) stdout ++
           CallWait ::
           (if (rc =? 0)%Z then [EmitFinishedSeg]
            else [EmitLog "ERROR: Segmentation failed"; EmitFinishedSeg])
       end,
     match Popen E cmd fs with
     | LaunchFails _ => fs
     | ReadFails _ _ after | Runs _ _ after => after
     end,
     Return tt).
Proof.
  intros Hm cmd.
  rewrite seg_run_eq. unfold seg_engine. rewrite Hm.
  change ("Skellytour" =? "Skellytour")%string with true. cbv iota.
  rewrite run_skellytour_eq, _run_eq.
  change (SegmentationWorker.skellytour_cmd self) with cmd.
  destruct (Popen E cmd fs) as [e|stdout e after|stdout rc after];
    [reflexivity | reflexivity |].
  destruct (rc =? 0)%Z; simpl; rewrite <- List.app_assoc; reflexivity.
Qed.

Lemma skellytour_dispatch_witness :
  SegmentationWorker.run env_garbled worker_skelly ∅ =
    ([EmitLog "Running Skellytour...";
      CallPopen ["skellytour"; "-i"; "/out/ct.nii.gz"; "-o"; "/out";
                 "-m"; "medium"; "-d"; "cpu"; "--overwrite"];
      EmitLog "one";
      EmitLog "ERROR: 'utf-8' codec can't decode byte 0xff in position 0: invalid start byte";
      EmitFinishedSeg],
     fs_out, Return tt).
Proof.
  exact (skellytour_dispatch env_garbled worker_skelly ∅ eq_refl).
Defined.




Lemma volume_path (out : Path) :
  out // "ct.nii.gz" = out ++ ["ct.nii.gz"]
  /\ PurePath.is_anchor (out ++ ["ct.nii.gz"]) = false
  /\ out ++ ["ct.nii.gz"] <> out.
Proof.
  split; [reflexivity|]. split.
  - destruct out as [|a [|b out]]; reflexivity.
  - intros H. apply (f_equal (@List.length string)) in H.
    rewrite List.length_app in H. simpl in H. lia.
Qed.

(* ===================================================================== *)
(** * Further properties of the conversion worker                         *)
(* ===================================================================== *)

(** The run of a conversion in which nothing fails. *)
Lemma conv_success_run
    (E : ConvEnv) (self : DicomToNiftiWorker.t) (fs fs1 : FS)
    (x : string) (xs : list string) :
  let dir := PurePath.str (DicomToNiftiWorker.dicom_dir self) in
  let out := DicomToNiftiWorker.output_dir self in
  let nifti := out ++ ["ct.nii.gz"] in
  let files :=
    GetGDCMSeriesFileNames E dir
      (Py.max_from
         (fun sid => List.length (GetGDCMSeriesFileNames E dir sid)) x xs) in
  PathIO.mkdir true true fs out = Return fs1 ->
  GetGDCMSeriesIDs E dir = x :: xs ->
  Execute E files = None ->
  WriteImage E (PurePath.str nifti) = None ->
  DicomToNiftiWorker.run E self fs =
    ([CallMkdir out; EmitLog "Reading DICOM folder..."; CallExecute files;
      CallWriteImage (PurePath.str nifti);
      EmitLog ("NIfTI created: " +:+ PurePath.str nifti);
      EmitFinishedConv nifti],
     <[nifti := File]> fs1, Return tt).
Proof.
  intros dir out nifti files Hmk Hids Hex Hwr.
  destruct (volume_path out) as (Hj & _ & _). fold nifti in Hj.
  rewrite conv_run_eq, conv_run_body_eq. fold out dir.
  rewrite Hmk, Hids. cbv zeta. fold files. rewrite Hj, Hex, Hwr.
  reflexivity.
Qed.

(** X3. A conversion in which the output directory can be made, at least
    one series is found and reading and writing succeed: the worker reads
    the files of the chosen series, writes [output_dir/ct.nii.gz], logs
    the two progress lines and emits the completion signal with that path.
    Afterwards the output directory is a directory, the volume is a file,
    and the widget that handles the signals has the path stored and the
    convert button enabled. *)
Theorem conversion_success
    (E : ConvEnv) (self : DicomToNiftiWorker.t) (fs fs1 : FS)
    (x : string) (xs : list string) :
  let dir := PurePath.str (DicomToNiftiWorker.dicom_dir self) in
  let out := DicomToNiftiWorker.output_dir self in
  let nifti := out ++ ["ct.nii.gz"] in
  let files :=
    GetGDCMSeriesFileNames E dir
      (Py.max_from
         (fun sid => List.length (GetGDCMSeriesFileNames E dir sid)) x xs) in
  PathIO.mkdir true true fs out = Return fs1 ->
  GetGDCMSeriesIDs E dir = x :: xs ->
  Execute E files = None ->
  WriteImage E (PurePath.str nifti) = None ->
  let r := DicomToNiftiWorker.run E self fs in
  r = ([CallMkdir out; EmitLog "Reading DICOM folder..."; CallExecute files;
        CallWriteImage (PurePath.str nifti);
        EmitLog ("NIfTI created: " +:+ PurePath.str nifti);
        EmitFinishedConv nifti],
       <[nifti := File]> fs1, Return tt)
  /\ Os.is_dir (fs_of r) out = true
  /\ Os.is_file (fs_of r) nifti = true
  /\ forall u,
       let u' := fold_left App.slot (App.signals (trace_of r)) u in
       SegmentationUI.nifti_path u' = Some nifti
       /\ SegmentationUI.btn_convert u' = true
       /\ SegmentationUI.log_box u' =
            SegmentationUI.log_box u ++
            ["Reading DICOM folder...";
             "NIfTI created: " +:+ PurePath.str nifti;
             nl +:+ "NIfTI conversion done." +:+ nl].
Proof.
  intros dir out nifti files Hmk Hids Hex Hwr r.
  destruct (volume_path out) as (Hj & Ha & Hne). fold nifti in Hj, Ha, Hne.
  assert (Hr : r = ([CallMkdir out; EmitLog "Reading DICOM folder...";
                     CallExecute files; CallWriteImage (PurePath.str nifti);
                     EmitLog ("NIfTI created: " +:+ PurePath.str nifti);
                     EmitFinishedConv nifti],
                    <[nifti := File]> fs1, Return tt)).
  { exact (conv_success_run E self fs fs1 x xs Hmk Hids Hex Hwr). }
  split; [exact Hr|]. rewrite Hr. unfold fs_of, trace_of. simpl fst. simpl snd.
  destruct (path_mkdir_keeps _ _ _ _ _ Hmk) as [Hd _].
  split; [|split].
  - unfold Os.is_dir, Os.stat in *.
    rewrite is_dir_insert_longer
      by (unfold nifti; rewrite List.length_app; simpl; lia).
    exact Hd.
  - unfold Os.is_dir, Os.is_file, Os.stat in *. unfold nifti at 2.
    rewrite (resolve_snoc _ out _ Ha).
    rewrite is_dir_insert_longer
      by (unfold nifti; rewrite List.length_app; simpl; lia).
    destruct (Os.resolve fs1 out) as [[|]| |]; try discriminate Hd.
    fold nifti. rewrite lookup_insert_eq. reflexivity.
  - intros u. simpl. repeat split.
    rewrite <- !List.app_assoc. reflexivity.
Qed.

Lemma conversion_success_witness :
  DicomToNiftiWorker.run env_two_series
    (DicomToNiftiWorker.__init__ "/in" "/out") ∅
  = ([CallMkdir ["/"; "out"]; EmitLog "Reading DICOM folder...";
      CallExecute ["b1"; "b2"]; CallWriteImage "/out/ct.nii.gz";
      EmitLog "NIfTI created: /out/ct.nii.gz";
      EmitFinishedConv ["/"; "out"; "ct.nii.gz"]],
     <[ ["/"; "out"; "ct.nii.gz"] := File ]> (<[ ["/"; "out"] := Dir ]> ∅),
     Return tt).
Proof.
  destruct (conversion_success env_two_series
              (DicomToNiftiWorker.__init__ "/in" "/out") ∅
              (<[ ["/"; "out"] := Dir ]> ∅) "1.2.3" ["1.2.4"; "1.2.5"])
    as [H _].
  - vm_compute. reflexivity.
  - reflexivity.
  - reflexivity.
  - reflexivity.
  - exact H.
Defined.

(** X4. The conversion worker never reports a volume it has not written:
    a completion signal that carries a path carries [output_dir/ct.nii.gz],
    [sitk.WriteImage] was called on it and succeeded, and the file is
    there. *)
Theorem conversion_reports_written_volume
    (E : ConvEnv) (self : DicomToNiftiWorker.t) (fs : FS) (p : Path) :
  let r := DicomToNiftiWorker.run E self fs in
  In (EmitFinishedConv p) (trace_of r) ->
  p = DicomToNiftiWorker.output_dir self ++ ["ct.nii.gz"]
  /\ In (CallWriteImage (PurePath.str p)) (trace_of r)
  /\ WriteImage E (PurePath.str p) = None
  /\ fs_of r !! p = Some File.
Proof.
  intros r. subst r. rewrite conv_run_eq, conv_run_body_eq.
  set (out := DicomToNiftiWorker.output_dir self).
  set (dir := PurePath.str (DicomToNiftiWorker.dicom_dir self)).
  destruct (volume_path out) as (Hj & _ & _). rewrite Hj.
  set (nifti := out ++ ["ct.nii.gz"]).
  destruct (PathIO.mkdir true true fs out) as [fs1|e].
  2: { unfold trace_of. simpl. intros [H|[H|[]]]; discriminate H. }
  destruct (GetGDCMSeriesIDs E dir) as [|x xs].
  { unfold trace_of. simpl. intros [H|[H|[H|[]]]]; discriminate H. }
  cbv zeta. destruct (Execute E _) as [e|].
  { unfold trace_of. simpl. intros [H|[H|[H|[H|[]]]]]; discriminate H. }
  destruct (WriteImage E (PurePath.str nifti)) as [e|] eqn:Hw.
  { unfold trace_of. simpl.
    intros [H|[H|[H|[H|[H|[]]]]]]; discriminate H. }
  unfold trace_of, fs_of. simpl.
  intros [H|[H|[H|[H|[H|[H|[]]]]]]]; try discriminate H.
  injection H as <-. split; [reflexivity|].
  split; [right; right; right; left; reflexivity|].
  split; [exact Hw|]. apply lookup_insert_eq.
Qed.

Lemma conversion_reports_written_volume_witness :
  ["/"; "out"; "ct.nii.gz"]
  = DicomToNiftiWorker.output_dir (DicomToNiftiWorker.__init__ "/in" "/out")
    ++ ["ct.nii.gz"]
  /\ fs_of (DicomToNiftiWorker.run env_two_series
              (DicomToNiftiWorker.__init__ "/in" "/out") ∅)
     !! ["/"; "out"; "ct.nii.gz"] = Some File.
Proof.
  destruct (conversion_reports_written_volume env_two_series
              (DicomToNiftiWorker.__init__ "/in" "/out") ∅
              ["/"; "out"; "ct.nii.gz"]) as (H1 & _ & _ & H4).
  - vm_compute. do 5 right. left. reflexivity.
  - split; [exact H1 | exact H4].
Defined.

(** X5. Whatever happens in a conversion run, every entry of the file
    system other than [output_dir/ct.nii.gz] is still there afterwards,
    unchanged: the worker only adds directories and writes the volume. *)
Theorem conversion_keeps_other_entries
    (E : ConvEnv) (self : DicomToNiftiWorker.t) (fs : FS) (q : Path) (n : node) :
  q <> DicomToNiftiWorker.output_dir self ++ ["ct.nii.gz"] ->
  fs !! q = Some n ->
  fs_of (DicomToNiftiWorker.run E self fs) !! q = Some n.
Proof.
  intros Hq Hn. rewrite conv_run_eq, conv_run_body_eq.
  set (out := DicomToNiftiWorker.output_dir self) in *.
  set (dir := PurePath.str (DicomToNiftiWorker.dicom_dir self)).
  destruct (volume_path out) as (Hj & _ & _). rewrite Hj.
  destruct (PathIO.mkdir true true fs out) as [fs1|e] eqn:Hmk;
    [|exact Hn].
  destruct (path_mkdir_keeps _ _ _ _ _ Hmk) as [_ Hk].
  specialize (Hk _ _ Hn).
  destruct (GetGDCMSeriesIDs E dir) as [|x xs]; [exact Hk|].
  cbv zeta. destruct (Execute E _) as [e|]; [exact Hk|].
  destruct (WriteImage E _) as [e|]; [exact Hk|].
  unfold fs_of. simpl. rewrite lookup_insert_ne by congruence. exact Hk.
Qed.

Lemma conversion_keeps_other_entries_witness :
  fs_of (DicomToNiftiWorker.run env_two_series
           (DicomToNiftiWorker.__init__ "/in" "/out") fs_out)
  !! ["/"; "out"] = Some Dir.
Proof.
  apply (conversion_keeps_other_entries env_two_series
           (DicomToNiftiWorker.__init__ "/in" "/out") fs_out).
  - discriminate.
  - vm_compute. reflexivity.
Defined.


(* ===================================================================== *)
(** * Further properties of the application                               *)
(* ===================================================================== *)

Lemma exec_app (s : App.t) (a b : list App.input) :
  App.exec s (a ++ b) = App.exec (App.exec s a) b.
Proof. unfold App.exec. apply fold_left_app. Qed.

(** A property kept by every step holds after every run. *)
Lemma exec_keeps (P : App.t -> Prop) :
  (forall s i, P s -> P (App.step s i)) ->
  forall inputs s, P s -> P (App.exec s inputs).
Proof.
  intros Hstep inputs. induction inputs as [|i inputs IH]; intros s Hs;
    [exact Hs|]. simpl. apply IH, Hstep, Hs.
Qed.

(** What the widget is after a delivery: as before, or as the slot of one
    signal left it. *)
Lemma deliver_ui (s : App.t) (k : nat) :
  App.ui (App.step s (App.Deliver k)) = App.ui s
  \/ exists sg, App.ui (App.step s (App.Deliver k)) = App.slot (App.ui s) sg.
Proof.
  simpl. destruct (App.threads s !! k) as [th|]; [|left; reflexivity].
  destruct (App.pending th) as [|sg [|sg2 rest]];
    [left; reflexivity | right; exists sg; reflexivity
     | right; exists sg; reflexivity].
Qed.

(** What no slot of a worker's signal touches, and what it only extends. *)
Lemma slot_keeps (u : SegmentationUI.t) (sg : event) :
  SegmentationUI.dicom_dir (App.slot u sg) = SegmentationUI.dicom_dir u
  /\ SegmentationUI.output_dir (App.slot u sg) = SegmentationUI.output_dir u
  /\ (SegmentationUI.nifti_path u <> None ->
      SegmentationUI.nifti_path (App.slot u sg) <> None)
  /\ (exists added,
        SegmentationUI.log_box (App.slot u sg)
        = SegmentationUI.log_box u ++ added)
  /\ SegmentationUI.method_box (App.slot u sg) = SegmentationUI.method_box u
  /\ SegmentationUI.model_box (App.slot u sg) = SegmentationUI.model_box u
  /\ SegmentationUI.device_box (App.slot u sg) = SegmentationUI.device_box u
  /\ SegmentationUI.ts_task_box (App.slot u sg) = SegmentationUI.ts_task_box u.
Proof.
  destruct sg as [text|p| | | | | |]; simpl; repeat split;
    try congruence;
    first [ eexists; reflexivity | exists []; symmetry; apply List.app_nil_r ].
Qed.

(** Destructs the tests that a step other than a delivery makes. *)
Ltac step_cases :=
  simpl;
  unfold SegmentationUI.select_dicom, SegmentationUI.select_output,
    SegmentationUI.convert_dicom, SegmentationUI.run_segmentation,
    App.choose_method, SegmentationWorker.__init__;
  repeat match goal with
    | |- context [match ?c with _ => _ end] =>
        lazymatch c with
        | context [match _ with _ => _ end] => fail
        | _ => destruct c eqn:?
        end
    end; simpl.

(** X8. Nothing the user or a worker does unsets a chosen folder or the
    volume path: a cancelled dialog, a failed conversion and a failed
    segmentation all leave them as they are. *)
Theorem chosen_stays_chosen (s : App.t) (inputs : list App.input) :
  let u := App.ui s in
  let u' := App.ui (App.exec s inputs) in
  (SegmentationUI.dicom_dir u <> None -> SegmentationUI.dicom_dir u' <> None)
  /\ (SegmentationUI.output_dir u <> None -> SegmentationUI.output_dir u' <> None)
  /\ (SegmentationUI.nifti_path u <> None -> SegmentationUI.nifti_path u' <> None).
Proof.
  cbv zeta.
  assert (Hstep : forall s i,
    (SegmentationUI.dicom_dir (App.ui s) <> None ->
     SegmentationUI.dicom_dir (App.ui (App.step s i)) <> None)
    /\ (SegmentationUI.output_dir (App.ui s) <> None ->
        SegmentationUI.output_dir (App.ui (App.step s i)) <> None)
    /\ (SegmentationUI.nifti_path (App.ui s) <> None ->
        SegmentationUI.nifti_path (App.ui (App.step s i)) <> None)).
  { clear. intros s i. destruct i.
    9: { destruct (deliver_ui s k) as [->|[sg ->]]; [tauto|].
         destruct (slot_keeps (App.ui s) sg) as (-> & -> & Hn & _). tauto. }
    all: step_cases; repeat split; intros; subst; simpl in *; congruence. }
  revert s. induction inputs as [|i inputs IH]; intros s; [tauto|].
  simpl. specialize (IH (App.step s i)). specialize (Hstep s i). tauto.
Qed.

Lemma chosen_stays_chosen_witness :
  SegmentationUI.nifti_path
    (App.ui (App.exec (App.exec App.init session_converted)
               [App.ClickConvert env_decode_fails fs_out;
                App.Deliver 0; App.Deliver 0; App.Deliver 0;
                App.ClickSelectOutput ""])) <> None.
Proof.
  apply (chosen_stays_chosen (App.exec App.init session_converted)).
  vm_compute. discriminate.
Defined.

(** X9. The log box only grows: whatever happens, what it showed is still
    shown, in the same order, before whatever was added. *)
Theorem log_only_grows (s : App.t) (inputs : list App.input) :
  exists added,
    SegmentationUI.log_box (App.ui (App.exec s inputs))
    = SegmentationUI.log_box (App.ui s) ++ added.
Proof.
  assert (Hstep : forall s i, exists added,
    SegmentationUI.log_box (App.ui (App.step s i))
    = SegmentationUI.log_box (App.ui s) ++ added).
  { clear. intros s i. destruct i.
    9: { destruct (deliver_ui s k) as [->|[sg ->]].
         - exists []. symmetry. apply List.app_nil_r.
         - destruct (slot_keeps (App.ui s) sg) as (_ & _ & _ & H & _).
           exact H. }
    all: step_cases; rewrite <- ?List.app_assoc;
      first [ eexists; reflexivity
            | exists []; symmetry; apply List.app_nil_r ]. }
  revert s. induction inputs as [|i inputs IH]; intros s.
  - exists []. symmetry. apply List.app_nil_r.
  - simpl. destruct (IH (App.step s i)) as [a2 H2].
    destruct (Hstep s i) as [a1 H1].
    exists (a1 ++ a2). rewrite H2, H1, List.app_assoc. reflexivity.
Qed.

(** X11. In every state the application can reach, the enabled boxes are
    those of the chosen method: model and device for Skellytour, the task
    for TotalSegmentator, never both groups and never neither. *)
Theorem boxes_follow_method (s : App.t) :
  App.reachable s -> boxes_agree (App.ui s).
Proof.
  intros [inputs ->].
  apply (exec_keeps (fun s => boxes_agree (App.ui s))); [|repeat split].
  clear. intros s i (H1 & H2 & H3). unfold boxes_agree in *. destruct i.
  9: { destruct (deliver_ui s k) as [->|[sg ->]]; [tauto|].
       destruct (slot_keeps (App.ui s) sg)
         as (_ & _ & _ & _ & -> & -> & -> & ->). tauto. }
  5: { simpl. unfold App.choose_method.
       set (cb := App.choose_box i (SegmentationUI.method_box (App.ui s))).
       destruct (String.eqb (currentText cb)
                   (currentText (SegmentationUI.method_box (App.ui s)))) eqn:Ht.
       - apply String.eqb_eq in Ht. simpl. rewrite Ht. tauto.
       - simpl. repeat split. }
  all: step_cases; unfold App.choose_box;
    repeat match goal with
      | |- context [if ?c then _ else _] => destruct c
      end; simpl; tauto.
Qed.

Lemma boxes_follow_method_witness :
  boxes_agree (App.ui (App.exec App.init session_mr)).
Proof.
  exact (boxes_follow_method _ (ex_intro _ session_mr eq_refl)).
Defined.

Lemma init_task_header :
  Py.startswith
    (currentText (SegmentationUI.ts_task_box SegmentationUI.__init__)) "---"
  = true.
Proof. reflexivity. Qed.

Lemma with_pending_kind (th : App.thread) (p : list event) :
  App.is_seg (App.with_pending th p) = App.is_seg th
  /\ App.is_conv (App.with_pending th p) = App.is_conv th.
Proof. destruct th; split; reflexivity. Qed.

Lemma untouched_step (s : App.t) (i : App.input) :
  leaves_method i = true -> method_untouched s -> method_untouched (App.step s i).
Proof.
  intros Hi (Hm & Ht & Hs & He). unfold method_untouched, App.segmenting in *.
  destruct i; try discriminate Hi; clear Hi.
  - (* select_dicom *)
    simpl. unfold SegmentationUI.select_dicom.
    destruct (String.eqb chosen ""); simpl; auto.
  - simpl. unfold SegmentationUI.select_output.
    destruct (String.eqb chosen ""); simpl; auto.
  - (* convert *)
    simpl. destruct (SegmentationUI.btn_convert (App.ui s)); [|auto].
    unfold SegmentationUI.convert_dicom.
    destruct (SegmentationUI.dicom_dir (App.ui s)) as [d|];
      [destruct (SegmentationUI.output_dir (App.ui s)) as [o|]|];
      [destruct (String.eqb d "" || String.eqb o "")| |];
      simpl; rewrite ?List.app_nil_r, ?List.filter_app, ?He; simpl; auto.
    repeat split; auto.
    unfold App.start_thread. simpl.
    destruct (App.signals _); simpl; rewrite List.app_nil_r; exact Hs.
  - (* run: the task box shows a header *)
    simpl. destruct (SegmentationUI.run_btn (App.ui s)); [|auto].
    unfold SegmentationUI.run_segmentation.
    destruct (SegmentationUI.nifti_path (App.ui s)) as [nifti|];
      [rewrite Ht, init_task_header|];
      simpl; rewrite ?List.app_nil_r, ?List.filter_app, ?He; simpl; auto.
  - (* model *)
    simpl. auto.
  - simpl. auto.
  - (* task: the box is disabled *)
    simpl. rewrite Ht. auto.
  - (* a delivery *)
    assert (Hui : SegmentationUI.method_box (App.ui (App.step s (App.Deliver k)))
                  = SegmentationUI.method_box SegmentationUI.__init__
                  /\ SegmentationUI.ts_task_box (App.ui (App.step s (App.Deliver k)))
                     = SegmentationUI.ts_task_box SegmentationUI.__init__).
    { destruct (deliver_ui s k) as [->|[sg ->]]; [auto|].
      destruct (slot_keeps (App.ui s) sg) as (_ & _ & _ & _ & -> & _ & _ & ->).
      auto. }
    destruct Hui as [Hm' Ht']. split; [exact Hm'|]. split; [exact Ht'|].
    clear Hm' Ht'. simpl.
    destruct (App.threads s !! k) as [th|] eqn:Hk; [|auto].
    pose proof (count_delete App.is_seg _ _ _ Hk) as Hd.
    pose proof (count_insert App.is_seg (App.threads s) k th) as Hins.
    destruct (App.pending th) as [|sg [|sg2 rest]]; simpl;
      (split; [|exact He]); try lia.
    rewrite (Hins (App.with_pending th (sg2 :: rest)) Hk
               (proj1 (with_pending_kind th _))).
    exact Hs.
Qed.

(** X12. As long as the method box is left alone, no segmentation worker
    is ever started: the method is Skellytour, the task box is disabled and
    shows the header of the first group, and [run_segmentation] refuses
    that text whatever else the user has done. *)
Theorem untouched_method_never_segments (inputs : list App.input) :
  forallb leaves_method inputs = true ->
  let s := App.exec App.init inputs in
  currentText (SegmentationUI.method_box (App.ui s)) = "Skellytour"
  /\ App.segmenting s = 0%nat
  /\ List.filter is_start_seg (App.effects s) = [].
Proof.
  intros Hin s.
  assert (H : method_untouched s).
  { subst s. assert (H0 : method_untouched App.init) by (repeat split).
    revert H0. generalize App.init as s0. revert Hin.
    induction inputs as [|i inputs IH]; intros Hin s0 H0; [exact H0|].
    simpl in Hin. apply andb_prop in Hin as [Hi Hin].
    simpl. apply (IH Hin). apply untouched_step; assumption. }
  destruct H as (Hm & _ & Hs & He). rewrite Hm. repeat split; assumption.
Qed.

Lemma untouched_method_never_segments_witness :
  App.segmenting
    (App.exec App.init
       (session_converted ++ [App.ChooseTask 1; App.ClickRun (env_exit 0) fs_out]))
  = 0%nat.
Proof.
  exact (proj1 (proj2 (untouched_method_never_segments
                         (session_converted ++
                          [App.ChooseTask 1; App.ClickRun (env_exit 0) fs_out])
                         eq_refl))).
Defined.

(** ** The event loop *)

Lemma pending_with_pending (th : App.thread) (p : list event) :
  App.pending (App.with_pending th p) = p.
Proof. destruct th; reflexivity. Qed.

Lemma exec_cons (s : App.t) (i : App.input) (inputs : list App.input) :
  App.exec s (i :: inputs) = App.exec (App.step s i) inputs.
Proof. reflexivity. Qed.

Lemma step_deliver_eq (s : App.t) (k : nat) (th : App.thread) :
  App.threads s !! k = Some th ->
  App.step s (App.Deliver k) =
  match App.pending th with
  | [] => {| App.ui := App.ui s; App.threads := delete k (App.threads s);
             App.effects := App.effects s |}
  | [sg] => {| App.ui := App.slot (App.ui s) sg;
               App.threads := delete k (App.threads s);
               App.effects := App.effects s |}
  | sg :: rest =>
      {| App.ui := App.slot (App.ui s) sg;
         App.threads := <[k := App.with_pending th rest]> (App.threads s);
         App.effects := App.effects s |}
  end.
Proof. intros Hk. simpl. rewrite Hk. reflexivity. Qed.

(** Handling the signals of one worker one after the other. *)
Lemma deliver_steps (p : list event) :
  forall (th : App.thread) (s : App.t) (l1 l2 : list App.thread),
    App.pending th = p ->
    p <> [] ->
    App.threads s = l1 ++ th :: l2 ->
    App.exec s (List.repeat (App.Deliver (List.length l1)) (List.length p))
    = {| App.ui := fold_left App.slot p (App.ui s);
         App.threads := l1 ++ l2;
         App.effects := App.effects s |}.
Proof.
  induction p as [|sg p IH]; intros th s l1 l2 Hp Hne Hth; [congruence|].
  assert (Hk : App.threads s !! List.length l1 = Some th)
    by (rewrite Hth; apply list_lookup_middle; reflexivity).
  replace (List.length (sg :: p)) with (S (List.length p)) by reflexivity.
  cbn [List.repeat]. rewrite exec_cons, (step_deliver_eq _ _ _ Hk), Hp.
  destruct p as [|sg2 rest].
  - simpl. rewrite Hth, delete_middle. reflexivity.
  - rewrite (IH (App.with_pending th (sg2 :: rest)) _ l1 l2).
    + reflexivity.
    + apply pending_with_pending.
    + discriminate.
    + cbn [App.threads]. rewrite Hth.
      rewrite insert_app_r_alt by lia. rewrite Nat.sub_diag. reflexivity.
Qed.

(** ** The conversion stage, end to end *)

(** The button is disabled only while the folders are chosen. *)
Lemma disabled_convert_has_folders (s : App.t) :
  App.reachable s ->
  SegmentationUI.btn_convert (App.ui s) = false -> folders_chosen (App.ui s).
Proof.
  intros [inputs ->].
  apply (exec_keeps (fun s => SegmentationUI.btn_convert (App.ui s) = false ->
                              folders_chosen (App.ui s)));
    [|discriminate].
  clear. intros s i HK. unfold folders_chosen in *. destruct i.
  9: { destruct (deliver_ui s k) as [->|[sg ->]]; [exact HK|].
       destruct sg as [text|p| | | | | |]; simpl; try exact HK;
         discriminate. }
  - simpl. unfold SegmentationUI.select_dicom.
    destruct (String.eqb chosen "") eqn:Hc; [exact HK|]. simpl.
    intros Hb. destruct (HK Hb) as (d & o & _ & Ho & _ & Hone).
    apply String.eqb_neq in Hc. exists chosen, o. auto.
  - simpl. unfold SegmentationUI.select_output.
    destruct (String.eqb chosen "") eqn:Hc; [exact HK|]. simpl.
    intros Hb. destruct (HK Hb) as (d & o & Hd & _ & Hdne & _).
    apply String.eqb_neq in Hc. exists d, chosen. auto.
  - simpl. destruct (SegmentationUI.btn_convert (App.ui s)) eqn:Hb;
      [|intros _; exact (HK eq_refl)].
    unfold SegmentationUI.convert_dicom.
    destruct (SegmentationUI.dicom_dir (App.ui s)) as [d|] eqn:Hd;
      [destruct (SegmentationUI.output_dir (App.ui s)) as [o|] eqn:Ho|];
      [destruct (String.eqb d "" || String.eqb o "") eqn:Hc| |];
      simpl; try (rewrite Hb; discriminate).
    intros _. apply orb_false_elim in Hc as [Hc1 Hc2].
    apply String.eqb_neq in Hc1, Hc2. exists d, o. auto.
  - simpl. destruct (SegmentationUI.run_btn (App.ui s)); [|exact HK].
    unfold SegmentationUI.run_segmentation.
    destruct (SegmentationUI.nifti_path (App.ui s)); [|exact HK].
    destruct (Py.startswith _ "---"); [exact HK|].
    destruct (Py.endswith _ "_mr");
      destruct (SegmentationUI.output_dir (App.ui s)) eqn:Ho; simpl;
      rewrite ?Ho; exact HK.
  - simpl. unfold App.choose_method.
    destruct (String.eqb _ _); simpl; exact HK.
  - simpl. exact HK.
  - simpl. exact HK.
  - simpl. exact HK.
Qed.

(** X7. Without both folders, [convert_dicom] only shows the
    "Missing Input" warning: the widget is unchanged and no worker is
    started. With both, the worker is created for exactly these folders.
    And in every state the application can reach, a conversion worker is in
    flight only if both folders are chosen. *)
Theorem conversion_requires_folders :
  (forall u,
     ~ folders_chosen u ->
     SegmentationUI.convert_dicom u = (u, [SegmentationUI.missing_input]))
  /\ (forall u d o,
        SegmentationUI.dicom_dir u = Some d ->
        SegmentationUI.output_dir u = Some o ->
        d <> "" -> o <> "" ->
        snd (SegmentationUI.convert_dicom u)
        = [StartConv (DicomToNiftiWorker.__init__ d o)])
  /\ (forall s,
        App.reachable s ->
        (0 < App.converting s)%nat ->
        folders_chosen (App.ui s)).
Proof.
  split; [|split].
  - intros u Hn. unfold SegmentationUI.convert_dicom.
    destruct (SegmentationUI.dicom_dir u) as [d|] eqn:Hd; [|reflexivity].
    destruct (SegmentationUI.output_dir u) as [o|] eqn:Ho; [|reflexivity].
    destruct (String.eqb d "" || String.eqb o "") eqn:Hc; [reflexivity|].
    exfalso. apply Hn. apply orb_false_elim in Hc as [Hc1 Hc2].
    apply String.eqb_neq in Hc1, Hc2. exists d, o. auto.
  - intros u d o Hd Ho Hdne Hone. unfold SegmentationUI.convert_dicom.
    rewrite Hd, Ho. apply String.eqb_neq in Hdne, Hone.
    rewrite Hdne, Hone. reflexivity.
  - intros s Hr Hc. apply (disabled_convert_has_folders s Hr).
    exact (inv_convert _ (inv_reachable _ Hr) Hc).
Qed.

Lemma conversion_requires_folders_witness :
  SegmentationUI.convert_dicom SegmentationUI.__init__
  = (SegmentationUI.__init__, [SegmentationUI.missing_input]).
Proof.
  apply (proj1 conversion_requires_folders).
  intros (d & o & Hd & _). vm_compute in Hd. discriminate Hd.
Defined.

Lemma convert_dicom_eq (u : SegmentationUI.t) (d o : string) :
  SegmentationUI.dicom_dir u = Some d ->
  SegmentationUI.output_dir u = Some o ->
  d <> "" -> o <> "" ->
  SegmentationUI.convert_dicom u =
    (SegmentationUI.set_worker (inl (DicomToNiftiWorker.__init__ d o))
       (SegmentationUI.set_btn_convert false
          (SegmentationUI.log u ("Converting DICOM → NIfTI..." +:+ nl))),
     [StartConv (DicomToNiftiWorker.__init__ d o)]).
Proof.
  intros Hd Ho Hdne Hone. unfold SegmentationUI.convert_dicom.
  rewrite Hd, Ho. apply String.eqb_neq in Hdne, Hone.
  rewrite Hdne, Hone. reflexivity.
Qed.

(** X13. From the click to the stored volume: with both folders chosen and
    the convert button enabled, a click on it followed by the handling of
    the three signals of a conversion in which nothing fails leaves the
    other workers in flight as they were, stores [output/ct.nii.gz] as the
    volume path, enables the button again and has added to the log, in
    this order, the start line, the worker's two lines and the "done"
    line. *)
Theorem convert_click_to_volume
    (s : App.t) (E : ConvEnv) (fs fs1 : FS) (d o x : string) (xs : list string) :
  let w := DicomToNiftiWorker.__init__ d o in
  let dir := PurePath.str (DicomToNiftiWorker.dicom_dir w) in
  let out := PurePath.of_str o in
  let nifti := out ++ ["ct.nii.gz"] in
  let files :=
    GetGDCMSeriesFileNames E dir
      (Py.max_from
         (fun sid => List.length (GetGDCMSeriesFileNames E dir sid)) x xs) in
  SegmentationUI.btn_convert (App.ui s) = true ->
  SegmentationUI.dicom_dir (App.ui s) = Some d ->
  SegmentationUI.output_dir (App.ui s) = Some o ->
  d <> "" -> o <> "" ->
  PathIO.mkdir true true fs out = Return fs1 ->
  GetGDCMSeriesIDs E dir = x :: xs ->
  Execute E files = None ->
  WriteImage E (PurePath.str nifti) = None ->
  let s' := App.exec s (App.ClickConvert E fs ::
                        List.repeat (App.Deliver (List.length (App.threads s))) 3) in
  App.threads s' = App.threads s
  /\ App.effects s' = App.effects s ++ [StartConv w]
  /\ SegmentationUI.nifti_path (App.ui s') = Some nifti
  /\ SegmentationUI.btn_convert (App.ui s') = true
  /\ SegmentationUI.log_box (App.ui s') =
       SegmentationUI.log_box (App.ui s) ++
       ["Converting DICOM → NIfTI..." +:+ nl;
        "Reading DICOM folder...";
        "NIfTI created: " +:+ PurePath.str nifti;
        nl +:+ "NIfTI conversion done." +:+ nl].
Proof.
  intros w dir out nifti files Hb Hd Ho Hdne Hone Hmk Hids Hex Hwr s'.
  pose proof (conv_success_run E w fs fs1 x xs Hmk Hids Hex Hwr) as Hrun.
  fold dir out nifti files in Hrun.
  set (p := [EmitLog "Reading DICOM folder...";
             EmitLog ("NIfTI created: " +:+ PurePath.str nifti);
             EmitFinishedConv nifti]).
  set (u1 := SegmentationUI.set_worker (inl w)
               (SegmentationUI.set_btn_convert false
                  (SegmentationUI.log (App.ui s)
                     ("Converting DICOM → NIfTI..." +:+ nl)))).
  assert (Hstep : App.step s (App.ClickConvert E fs) =
            {| App.ui := u1;
               App.threads := App.threads s ++ [App.ConvThread p];
               App.effects := App.effects s ++ [StartConv w] |}).
  { cbn [App.step]. rewrite Hb, (convert_dicom_eq _ _ _ Hd Ho Hdne Hone).
    fold w u1. cbn [List.flat_map App.started_conv]. rewrite Hrun.
    reflexivity. }
  subst s'. rewrite exec_cons, Hstep.
  pose proof (deliver_steps p (App.ConvThread p)
                {| App.ui := u1;
                   App.threads := App.threads s ++ [App.ConvThread p];
                   App.effects := App.effects s ++ [StartConv w] |}
                (App.threads s) [] eq_refl ltac:(discriminate) eq_refl) as Hdel.
  change (List.length p) with 3%nat in Hdel. rewrite Hdel.
  cbn [App.ui App.threads App.effects].
  split; [apply List.app_nil_r|]. split; [reflexivity|].
  subst p u1. simpl. repeat split.
  rewrite <- !List.app_assoc. reflexivity.
Qed.

Lemma convert_click_to_volume_witness :
  SegmentationUI.nifti_path
    (App.ui (App.exec
               (App.exec App.init
                  [App.ClickSelectDicom "/in"; App.ClickSelectOutput "/out"])
               (App.ClickConvert env_two_series ∅ ::
                List.repeat (App.Deliver 0) 3)))
  = Some ["/"; "out"; "ct.nii.gz"].
Proof.
  set (s0 := App.exec App.init
               [App.ClickSelectDicom "/in"; App.ClickSelectOutput "/out"]).
  destruct (convert_click_to_volume s0 env_two_series ∅
              (<[ ["/"; "out"] := Dir ]> ∅) "/in" "/out" "1.2.3"
              ["1.2.4"; "1.2.5"])
    as (_ & _ & H & _);
    [reflexivity | reflexivity | reflexivity | discriminate | discriminate
     | vm_compute; reflexivity | reflexivity | reflexivity | reflexivity
     | exact H].
Defined.

(** ** The segmentation stage, end to end *)

Lemma log_texts_app (a b : list event) :
  log_texts (a ++ b) = log_texts a ++ log_texts b.
Proof. unfold log_texts. apply List.flat_map_app. Qed.

(** X14. From the click to "Done.": with a volume, an output folder, the
    run button enabled and a task text that is no header, a click on the
    run button followed by the handling of all the signals of the worker
    leaves the other workers in flight and the volume path as they were,
    enables the run button again and has added to the log, in this order,
    the MR advisory if the task ends with "_mr", the start line, every log
    line of the worker in the order of emission (its "ERROR: ..." line
    included if the run failed) and "Done." last. *)
Theorem run_click_to_done
    (s : App.t) (E : SegEnv) (fs : FS) (nifti : Path) (o : string) :
  let u := App.ui s in
  let task := currentText (SegmentationUI.ts_task_box u) in
  let w := {| SegmentationWorker.nifti_path := nifti;
              SegmentationWorker.output_dir := PurePath.of_str o;
              SegmentationWorker.method :=
                currentText (SegmentationUI.method_box u);
              SegmentationWorker.model :=
                currentText (SegmentationUI.model_box u);
              SegmentationWorker.device :=
                currentText (SegmentationUI.device_box u);
              SegmentationWorker.ts_task := task |} in
  let tr := trace_of (SegmentationWorker.run E w fs) in
  SegmentationUI.run_btn u = true ->
  SegmentationUI.nifti_path u = Some nifti ->
  SegmentationUI.output_dir u = Some o ->
  Py.startswith task "---" = false ->
  let s' := App.exec s
              (App.ClickRun E fs ::
               List.repeat (App.Deliver (List.length (App.threads s)))
                           (List.length (App.signals tr))) in
  App.threads s' = App.threads s
  /\ App.effects s' = App.effects s ++ [StartSeg w]
  /\ SegmentationUI.run_btn (App.ui s') = true
  /\ SegmentationUI.nifti_path (App.ui s') = Some nifti
  /\ SegmentationUI.log_box (App.ui s') =
       SegmentationUI.log_box u
       ++ (if Py.endswith task "_mr" then [SegmentationUI.mr_warning] else [])
       ++ ["Starting segmentation..." +:+ nl]
       ++ log_texts tr
       ++ [nl +:+ "Done." +:+ nl].
Proof.
  intros u task w tr Hb Hn Ho Hh s'.
  set (u1 := if Py.endswith task "_mr"
             then SegmentationUI.log u SegmentationUI.mr_warning else u).
  set (u3 := SegmentationUI.set_worker (inr w)
               (SegmentationUI.set_run_btn false
                  (SegmentationUI.log u1 ("Starting segmentation..." +:+ nl)))).
  assert (Hrun : SegmentationUI.run_segmentation u = (u3, [StartSeg w])).
  { unfold SegmentationUI.run_segmentation. rewrite Hn. fold task.
    rewrite Hh, Ho. reflexivity. }
  pose proof (seg_signals_wf E w fs) as Hwf. fold tr in Hwf.
  assert (Hstep : App.step s (App.ClickRun E fs) =
            {| App.ui := u3;
               App.threads := App.threads s ++ [App.SegThread (App.signals tr)];
               App.effects := App.effects s ++ [StartSeg w] |}).
  { cbn [App.step]. fold u. rewrite Hb, Hrun.
    cbn [List.flat_map App.started_seg]. fold tr.
    rewrite (start_thread_wf (App.SegThread _) Hwf). reflexivity. }
  subst s'. rewrite exec_cons, Hstep.
  rewrite (deliver_steps (App.signals tr) (App.SegThread (App.signals tr))
             {| App.ui := u3;
                App.threads := App.threads s ++ [App.SegThread (App.signals tr)];
                App.effects := App.effects s ++ [StartSeg w] |}
             (App.threads s) [] eq_refl (wf_pending_nonempty _ _ Hwf) eq_refl).
  cbn [App.ui App.threads App.effects].
  split; [apply List.app_nil_r|]. split; [reflexivity|].
  destruct (seg_worker_shape E w fs) as (_ & tr0 & Htr & Hq). fold tr in Htr.
  rewrite Htr, signals_app, fold_left_app, (slot_quiet _ Hq), log_texts_app.
  destruct (fold_log (log_texts tr0) u3)
    as [(_ & _ & _ & _ & _ & _ & _ & _ & Hni & _) Hl].
  simpl. split; [reflexivity|]. split.
  - rewrite Hni. subst u3 u1. destruct (Py.endswith task "_mr"); exact Hn.
  - rewrite Hl. subst u3 u1. rewrite List.app_nil_r.
    destruct (Py.endswith task "_mr"); simpl;
      rewrite <- !List.app_assoc; reflexivity.
Qed.

Lemma run_click_to_done_witness :
  let s0 := App.exec App.init session_mr in
  SegmentationUI.log_box
    (App.ui (App.exec s0 (App.ClickRun (env_exit 1) fs_out ::
                          List.repeat (App.Deliver 0) 6)))
  = SegmentationUI.log_box (App.ui s0) ++
    [SegmentationUI.mr_warning; "Starting segmentation..." +:+ nl;
     "Running TotalSegmentator (task: total_mr)";
     "one"; "two"; "three"; "ERROR: Segmentation failed";
     nl +:+ "Done." +:+ nl].
Proof.
  intros s0.
  destruct (run_click_to_done s0 (env_exit 1) fs_out
              ["/"; "out"; "ct.nii.gz"] "/out")
    as (_ & _ & _ & _ & H);
    [reflexivity | reflexivity | reflexivity | reflexivity |].
  vm_compute in H. vm_compute. exact H.
Defined.

(** ** What the widget never does *)

(** X15. The header test of [run_segmentation] separates the items of the
    task box exactly: an item starts with "---" if and only if it is not a
    task of the catalogue, so every task can be run and every header is
    refused. *)
Theorem header_test_exact (item : string) :
  In item SegmentationUI.ts_task_items ->
  (Py.startswith item "---" = false <-> In item catalog_tasks).
Proof.
  assert (H : forallb
            (fun t => Bool.eqb (negb (Py.startswith t "---"))
                        (existsb (String.eqb t) catalog_tasks))
            SegmentationUI.ts_task_items = true) by (vm_compute; reflexivity).
  rewrite forallb_forall in H. intros Hin. specialize (H _ Hin).
  apply Bool.eqb_prop in H. split.
  - intros Hs. rewrite Hs in H. change (negb false) with true in H.
    symmetry in H. apply existsb_exists in H as (t & Ht & Heq).
    apply String.eqb_eq in Heq. subst t. exact Ht.
  - intros Hc. destruct (Py.startswith item "---"); [|reflexivity].
    change (negb true) with false in H. symmetry in H.
    assert (Hex : existsb (String.eqb item) catalog_tasks = true).
    { apply existsb_exists. exists item. split; [exact Hc|].
      apply String.eqb_refl. }
    congruence.
Qed.

Lemma header_test_exact_witness :
  Py.startswith "liver_segments_mr" "---" = false
  <-> In "liver_segments_mr" catalog_tasks.
Proof.
  apply header_test_exact. vm_compute. do 29 right. left. reflexivity.
Defined.

(** X16. Whenever [run_segmentation] starts a worker, in any state of the
    widget, the worker has the stored volume path, the chosen output
    folder, the texts the method, model and device boxes show, and as task
    the text of the task box, which is no header; and the run button has
    been disabled. *)
Theorem started_worker_fields (u : SegmentationUI.t) (w : SegmentationWorker.t) :
  In (StartSeg w) (snd (SegmentationUI.run_segmentation u)) ->
  SegmentationUI.nifti_path u = Some (SegmentationWorker.nifti_path w)
  /\ (exists o, SegmentationUI.output_dir u = Some o
                /\ SegmentationWorker.output_dir w = PurePath.of_str o)
  /\ SegmentationWorker.method w = currentText (SegmentationUI.method_box u)
  /\ SegmentationWorker.model w = currentText (SegmentationUI.model_box u)
  /\ SegmentationWorker.device w = currentText (SegmentationUI.device_box u)
  /\ SegmentationWorker.ts_task w = currentText (SegmentationUI.ts_task_box u)
  /\ Py.startswith (SegmentationWorker.ts_task w) "---" = false
  /\ SegmentationUI.run_btn (fst (SegmentationUI.run_segmentation u)) = false.
Proof.
  unfold SegmentationUI.run_segmentation.
  destruct (SegmentationUI.nifti_path u) as [nifti|];
    [|simpl; intros [H|[]]; discriminate H].
  destruct (Py.startswith (currentText (SegmentationUI.ts_task_box u)) "---")
    eqn:Hh; [simpl; intros [H|[]]; discriminate H|].
  destruct (SegmentationUI.output_dir u) as [o|];
    [|simpl; intros [H|[]]; discriminate H].
  simpl. intros [H|[]]. injection H as <-. simpl.
  repeat split; try exact Hh. exists o. split; reflexivity.
Qed.

Lemma started_worker_fields_witness :
  SegmentationWorker.ts_task worker_total_mr = "total_mr"
  /\ SegmentationUI.run_btn
       (fst (SegmentationUI.run_segmentation
               (App.ui (App.exec App.init session_mr)))) = false.
Proof.
  destruct (started_worker_fields (App.ui (App.exec App.init session_mr))
              worker_total_mr)
    as (_ & _ & _ & _ & _ & _ & _ & H).
  - vm_compute. left. reflexivity.
  - split; [reflexivity | exact H].
Defined.

(** X17. No slot ever raises: in every state the application can reach,
    the only effects of the slots have been warnings and started workers.
    In particular [SegmentationWorker(...)] is never given a missing output
    folder, because a volume path is only ever stored after a conversion,
    which needs the folder. *)
Theorem no_slot_raises (s : App.t) :
  App.reachable s -> List.filter is_uncaught (App.effects s) = [].
Proof.
  intros [inputs ->].
  enough (H : Inv (App.exec App.init inputs)
              /\ List.filter is_uncaught
                   (App.effects (App.exec App.init inputs)) = [])
    by exact (proj2 H).
  apply (exec_keeps (fun s => Inv s
                              /\ List.filter is_uncaught (App.effects s) = []));
    [|split; [exact inv_init | reflexivity]].
  clear. intros s i [HI He]. split; [exact (inv_step s i HI)|].
  destruct i; try exact He.
  - simpl. destruct (SegmentationUI.btn_convert (App.ui s)); [|exact He].
    unfold SegmentationUI.convert_dicom.
    destruct (SegmentationUI.dicom_dir (App.ui s)) as [d|];
      [destruct (SegmentationUI.output_dir (App.ui s)) as [o|]|];
      [destruct (String.eqb d "" || String.eqb o "")| |];
      simpl; rewrite List.filter_app, He; reflexivity.
  - simpl. destruct (SegmentationUI.run_btn (App.ui s)); [|exact He].
    unfold SegmentationUI.run_segmentation.
    destruct (SegmentationUI.nifti_path (App.ui s)) as [nifti|] eqn:Hn;
      [|simpl; rewrite List.filter_app, He; reflexivity].
    destruct (Py.startswith _ "---");
      [simpl; rewrite List.filter_app, He; reflexivity|].
    destruct (inv_output _ HI) as [o Ho]; [right; congruence|].
    rewrite Ho. simpl. rewrite List.filter_app, He. reflexivity.
  - simpl. destruct (App.threads s !! k) as [th|]; [|exact He].
    destruct (App.pending th) as [|sg [|sg2 rest]]; exact He.
Qed.

Lemma no_slot_raises_witness :
  List.filter is_uncaught (App.effects (App.exec App.init session_both)) = [].
Proof.
  exact (no_slot_raises _ (ex_intro _ session_both eq_refl)).
Defined.
